(** * ggame: sprites, extents, collisions, registry and event routing

    A shallow embedding of [ggame.py] (classes [Sprite], [KeyEvent] and
    [App]) and the properties of its geometry and dispatch code.

    Conventions of the embedding.
    - Python numbers are modelled as real numbers: [/] is true division,
      [//] is the floor of the quotient, [int] truncates toward zero and
      the functions of [math] are their real counterparts.
    - One computation is not idealised. For a circle, [_setExtents]
      truncates two floating-point products with [int], and truncation
      turns their rounding error into a whole pixel; these two products
      are the values the machine computes, a parameter of the embedding
      (class [Machine]).
    - A method that mutates [self] is a function returning the new
      object; one that may raise returns the state it left behind
      together with the exception.
    - Sprites are objects with identity: they live in a heap and are
      passed around as locations. *)

From Stdlib Require Import Reals Lra ZArith.
From stdpp Require Import gmap strings list.

(** ** Python values *)

Module Py.

Inductive exn :=
| AttributeError
| KeyError
| ValueError
| ZeroDivisionError
| IndexError
| ReferenceError.

(** A statement sequence: the state it leaves and the exception it
    raised, if any. *)
Definition step (S : Type) : Type := (S * option exn)%type.

Definition done_ {S} (s : S) : step S := (s, None).
Definition raise {S} (s : S) (e : exn) : step S := (s, Some e).

Definition and_then {S} (m : step S) (k : S -> step S) : step S :=
  match m with
  | (s, None) => k s
  | (s, Some e) => (s, Some e)
  end.

Section Numbers.
Local Open Scope R_scope.

(** [int(r)]: truncation toward zero. *)
Definition int (r : R) : R :=
  if Rle_dec 0 r then IZR (Int_part r) else - IZR (Int_part (- r)).

(** [a // b]: floor of the quotient. *)
Definition floordiv (a b : R) : R := IZR (Int_part (a / b)).

(** [math.atan2(y, x)]. *)
Definition atan2 (y x : R) : R :=
  if Rlt_dec 0 x then atan (y / x)
  else if Rlt_dec x 0 then
    if Rle_dec 0 y then atan (y / x) + PI else atan (y / x) - PI
  else if Rlt_dec 0 y then PI / 2
  else if Rlt_dec y 0 then - (PI / 2)
  else 0.

(** [bool(v)] of a number. *)
Definition truthy (v : R) : bool := if Req_dec_T v 0 then false else true.

(** [min(t)] and [max(t)] of a non-empty tuple, given as head and tail. *)
Definition min_of (a : R) (l : list R) : R := fold_left Rmin l a.
Definition max_of (a : R) (l : list R) : R := fold_left Rmax l a.

(** [a <= b] and [a < b], [a > b] as Python booleans. *)
Definition le (a b : R) : bool := if Rle_dec a b then true else false.
Definition lt (a b : R) : bool := if Rlt_dec a b then true else false.
Definition gt (a b : R) : bool := lt b a.

End Numbers.

(** [l.remove(x)]: drops the first occurrence; [None] stands for the
    [ValueError] of a missing element. *)
Fixpoint list_remove {A} `{EqDecision A} (x : A) (l : list A) : option (list A) :=
  match l with
  | [] => None
  | y :: l' => if decide (x = y) then Some l'
               else cons y <$> list_remove x l'
  end.

End Py.

(** ** Assets *)

Definition point : Type := (R * R)%type.

(** The geometric content of the asset classes. An [ImageAsset] also
    records how many textures its [GFXlist] holds, which is what
    [__len__] returns; every other asset holds exactly one. *)
Inductive Asset :=
| ImageAsset (width height : R) (frames : nat)
| RectangleAsset (width height : R)
| CircleAsset (radius : R)
| EllipseAsset (halfw halfh : R)
| PolygonAsset (path : list point)
| LineAsset (deltaX deltaY : R)
| TextAsset (width height : R).

Definition asset_len (a : Asset) : nat :=
  match a with
  | ImageAsset _ _ n => n
  | _ => 1%nat
  end.

(** [type(a) is CircleAsset] *)
Definition is_CircleAsset (a : Asset) : bool :=
  match a with CircleAsset _ => true | _ => false end.

(** ** The display object of the renderer

    Modelled from the spec: the display handle that [sysdeps] imports
    from the renderer, with mutable position, size, anchor, scale,
    rotation and visibility. A handle may lack anchor, scale or
    rotation; the getters of [Sprite] then answer a default. *)
Record Display := {
  GFX_position : point;
  GFX_width : R;
  GFX_height : R;
  GFX_anchor : option point;
  GFX_scale : option point;
  GFX_rotation : option R;
  GFX_visible : bool
}.

(** Modelled from the spec: the handle [GFX_Sprite(texture)] of the
    renderer hands back for a texture of the given size, placed at the
    origin, anchored at its upper left corner, unscaled and unrotated. *)
Definition GFX_Sprite (w h : R) : Display :=
  {| GFX_position := (0, 0)%R; GFX_width := w; GFX_height := h;
     GFX_anchor := Some (0, 0)%R; GFX_scale := Some (1, 1)%R;
     GFX_rotation := Some 0%R; GFX_visible := true |}.

(** ** Sprites *)

Record Sprite := {
  asset : Asset;
  edgedef : Asset;
  GFX : Display;
  xmin : R;
  xmax : R;
  ymin : R;
  ymax : R;
  _extentsdirty : bool;
  _basevertices : list point;
  _absolutevertices : list point;
  _index : Z
}.

(** ** Floating point

    For a sprite whose asset is a circle, [_setExtents] computes
<<
    th = math.atan2(self.fycenter - 0.5, 0.5 - self.fxcenter) + self.rotation
    D = self.width
    L = math.sqrt(math.pow(self.fxcenter - 0.5, 2) +
        math.pow(self.fycenter - 0.5, 2)) * D
>>
    and truncates [L*math.cos(th)] and [L*math.sin(th)] with [int]. With
    the default anchor and no rotation the exact products are [D/2] and
    [-D/2]; in floating point they fall a little above or below, and
    [int] then answers [D/2] or one less. [L_cos_th fx fy rot D] and
    [L_sin_th fx fy rot D] are the two products as the machine computes
    them from the anchor [(fx, fy)], the rotation [rot] and the
    width [D]. *)
Class Machine := {
  L_cos_th : R -> R -> R -> R -> R;
  L_sin_th : R -> R -> R -> R -> R
}.

Module Sprite.
Import Py.
Local Open Scope R_scope.

Definition with_GFX (s : Sprite) (g : Display) : Sprite :=
  {| asset := asset s; edgedef := edgedef s; GFX := g;
     xmin := xmin s; xmax := xmax s; ymin := ymin s; ymax := ymax s;
     _extentsdirty := _extentsdirty s; _basevertices := _basevertices s;
     _absolutevertices := _absolutevertices s; _index := _index s |}.

Definition with_dirty (s : Sprite) (d : bool) : Sprite :=
  {| asset := asset s; edgedef := edgedef s; GFX := GFX s;
     xmin := xmin s; xmax := xmax s; ymin := ymin s; ymax := ymax s;
     _extentsdirty := d; _basevertices := _basevertices s;
     _absolutevertices := _absolutevertices s; _index := _index s |}.

Definition with_extents (s : Sprite) (x0 x1 y0 y1 : R) : Sprite :=
  {| asset := asset s; edgedef := edgedef s; GFX := GFX s;
     xmin := x0; xmax := x1; ymin := y0; ymax := y1;
     _extentsdirty := _extentsdirty s; _basevertices := _basevertices s;
     _absolutevertices := _absolutevertices s; _index := _index s |}.

Definition with_basevertices (s : Sprite) (v : list point) : Sprite :=
  {| asset := asset s; edgedef := edgedef s; GFX := GFX s;
     xmin := xmin s; xmax := xmax s; ymin := ymin s; ymax := ymax s;
     _extentsdirty := _extentsdirty s; _basevertices := v;
     _absolutevertices := _absolutevertices s; _index := _index s |}.

Definition with_absolutevertices (s : Sprite) (v : list point) : Sprite :=
  {| asset := asset s; edgedef := edgedef s; GFX := GFX s;
     xmin := xmin s; xmax := xmax s; ymin := ymin s; ymax := ymax s;
     _extentsdirty := _extentsdirty s; _basevertices := _basevertices s;
     _absolutevertices := v; _index := _index s |}.

(** *** Properties: getters *)

Definition width (s : Sprite) : R := GFX_width (GFX s).
Definition height (s : Sprite) : R := GFX_height (GFX s).
Definition x (s : Sprite) : R := fst (GFX_position (GFX s)).
Definition y (s : Sprite) : R := snd (GFX_position (GFX s)).
Definition position (s : Sprite) : point := (x s, y s).

Definition fxcenter (s : Sprite) : R :=
  match GFX_anchor (GFX s) with Some (ax, _) => ax | None => 0 end.

Definition fycenter (s : Sprite) : R :=
  match GFX_anchor (GFX s) with Some (_, ay) => ay | None => 0 end.

Definition center (s : Sprite) : point :=
  match GFX_anchor (GFX s) with Some a => a | None => (0, 0) end.

Definition scale (s : Sprite) : R :=
  match GFX_scale (GFX s) with Some (sx, _) => sx | None => 1 end.

Definition rotation (s : Sprite) : R :=
  match GFX_rotation (GFX s) with Some r => - r | None => 0 end.

(** *** Properties: setters *)

Definition set_GFX_position (g : Display) (p : point) : Display :=
  {| GFX_position := p; GFX_width := GFX_width g; GFX_height := GFX_height g;
     GFX_anchor := GFX_anchor g; GFX_scale := GFX_scale g;
     GFX_rotation := GFX_rotation g; GFX_visible := GFX_visible g |}.

Definition set_GFX_width (g : Display) (v : R) : Display :=
  {| GFX_position := GFX_position g; GFX_width := v; GFX_height := GFX_height g;
     GFX_anchor := GFX_anchor g; GFX_scale := GFX_scale g;
     GFX_rotation := GFX_rotation g; GFX_visible := GFX_visible g |}.

Definition set_GFX_height (g : Display) (v : R) : Display :=
  {| GFX_position := GFX_position g; GFX_width := GFX_width g; GFX_height := v;
     GFX_anchor := GFX_anchor g; GFX_scale := GFX_scale g;
     GFX_rotation := GFX_rotation g; GFX_visible := GFX_visible g |}.

Definition set_GFX_anchor (g : Display) (a : option point) : Display :=
  {| GFX_position := GFX_position g; GFX_width := GFX_width g;
     GFX_height := GFX_height g;
     GFX_anchor := a; GFX_scale := GFX_scale g;
     GFX_rotation := GFX_rotation g; GFX_visible := GFX_visible g |}.

Definition set_GFX_scale (g : Display) (a : option point) : Display :=
  {| GFX_position := GFX_position g; GFX_width := GFX_width g;
     GFX_height := GFX_height g;
     GFX_anchor := GFX_anchor g; GFX_scale := a;
     GFX_rotation := GFX_rotation g; GFX_visible := GFX_visible g |}.

Definition set_GFX_rotation (g : Display) (r : option R) : Display :=
  {| GFX_position := GFX_position g; GFX_width := GFX_width g;
     GFX_height := GFX_height g;
     GFX_anchor := GFX_anchor g; GFX_scale := GFX_scale g;
     GFX_rotation := r; GFX_visible := GFX_visible g |}.

Definition set_width (s : Sprite) (value : R) : Sprite :=
  with_dirty (with_GFX s (set_GFX_width (GFX s) value)) true.

Definition set_height (s : Sprite) (value : R) : Sprite :=
  with_dirty (with_GFX s (set_GFX_height (GFX s) value)) true.

(** The extents follow the move; the flag is not touched. *)
Definition set_x (s : Sprite) (value : R) : Sprite :=
  let deltax := value - x s in
  let s1 := with_extents s (xmin s) (xmax s + deltax) (ymin s) (ymax s) in
  let s2 := with_extents s1 (xmin s1 + deltax) (xmax s1) (ymin s1) (ymax s1) in
  with_GFX s2 (set_GFX_position (GFX s2) (value, y s2)).

Definition set_y (s : Sprite) (value : R) : Sprite :=
  let deltay := value - y s in
  let s1 := with_extents s (xmin s) (xmax s) (ymin s) (ymax s + deltay) in
  let s2 := with_extents s1 (xmin s1) (xmax s1) (ymin s1 + deltay) (ymax s1) in
  with_GFX s2 (set_GFX_position (GFX s2) (x s2, value)).

Definition set_position (s : Sprite) (value : point) : Sprite :=
  set_y (set_x s (fst value)) (snd value).

(** The anchor setters swallow the failure of a handle without anchor. *)
Definition set_fxcenter (s : Sprite) (value : R) : Sprite :=
  match GFX_anchor (GFX s) with
  | Some (_, ay) =>
      with_dirty (with_GFX s (set_GFX_anchor (GFX s) (Some (value, ay)))) true
  | None => s
  end.

Definition set_fycenter (s : Sprite) (value : R) : Sprite :=
  match GFX_anchor (GFX s) with
  | Some (ax, _) =>
      with_dirty (with_GFX s (set_GFX_anchor (GFX s) (Some (ax, value)))) true
  | None => s
  end.

Definition set_center (s : Sprite) (value : point) : Sprite :=
  match GFX_anchor (GFX s) with
  | Some _ =>
      with_dirty
        (with_GFX s (set_GFX_anchor (GFX s) (Some (fst value, snd value))))
        true
  | None => s
  end.

(** [scale] has no handler: a handle without scale raises. *)
Definition set_scale (s : Sprite) (value : R) : step Sprite :=
  match GFX_scale (GFX s) with
  | Some _ =>
      done_ (with_dirty
               (with_GFX s (set_GFX_scale (GFX s) (Some (value, value))))
               true)
  | None => raise s AttributeError
  end.

Definition set_rotation (s : Sprite) (value : R) : Sprite :=
  let s1 := with_GFX s (set_GFX_rotation (GFX s) (Some (- value))) in
  if truthy value then with_dirty s1 true else s1.

(** *** Vertices and extents *)

(** Sprite-relative outline of the edge definition. A circle has none. *)
Definition _createBaseVertices (s : Sprite) : Sprite :=
  with_basevertices s
    match edgedef s with
    | RectangleAsset w h | ImageAsset w h _ | TextAsset w h =>
        [(0, 0); (0, h); (w, h); (w, 0)]
    | PolygonAsset path => removelast path
    | LineAsset dx dy => [(0, 0); (dx, dy)]
    | EllipseAsset halfw halfh =>
        let w := halfw * 2 in
        let h := halfh * 2 in
        [(0, 0); (0, h); (w, h); (w, 0)]
    | CircleAsset _ => []
    end.

(** Window-relative outline: centre, scale, rotate, move. *)
Definition _xformVertices (s : Sprite) : step Sprite :=
  if Req_dec_T (scale s) 0 then raise s ZeroDivisionError
  else
    let x0 := width s * fxcenter s / scale s in
    let y0 := height s * fycenter s / scale s in
    let crsc :=
      if Req_dec_T (scale s) 1
      then map (fun p : point => (fst p - x0, snd p - y0)) (_basevertices s)
      else
        let sc := scale s in
        map (fun p : point => ((fst p - x0) * sc, (snd p - y0) * sc))
            (_basevertices s) in
    let c := cos (rotation s) in
    let sn := sin (rotation s) in
    done_ (with_absolutevertices s
             (map (fun p : point =>
                     (x s + fst p * c + snd p * sn,
                      y s + - fst p * sn + snd p * c)) crsc)).

(** The two products of the circle branch in exact arithmetic. *)
Definition exact_L_cos_th (fx fy rot D : R) : R :=
  let th := atan2 (fy - 0.5) (0.5 - fx) + rot in
  let L := sqrt ((fx - 0.5) ^ 2 + (fy - 0.5) ^ 2) * D in
  L * cos th.

Definition exact_L_sin_th (fx fy rot D : R) : R :=
  let th := atan2 (fy - 0.5) (0.5 - fx) + rot in
  let L := sqrt ((fx - 0.5) ^ 2 + (fy - 0.5) ^ 2) * D in
  L * sin th.

Section Extents.
Context {m : Machine}.

Definition _setExtents (s : Sprite) : step Sprite :=
  if _extentsdirty s then
    if is_CircleAsset (asset s) then
      let D := width s in
      let Lcos := L_cos_th (fxcenter s) (fycenter s) (rotation s) D in
      let Lsin := L_sin_th (fxcenter s) (fycenter s) (rotation s) D in
      let x0 := x s + int Lcos - floordiv D 2 in
      let y0 := y s - int Lsin - floordiv D 2 in
      done_ (with_dirty (with_extents s x0 (x0 + D) y0 (y0 + D)) false)
    else
      and_then (_xformVertices s) (fun s1 =>
        match _absolutevertices s1 with
        | [] => raise s1 ValueError
        | p :: ps =>
            let xs := map fst ps in
            let ys := map snd ps in
            done_ (with_dirty
                     (with_extents s1
                        (min_of (fst p) xs) (max_of (fst p) xs)
                        (min_of (snd p) ys) (max_of (snd p) ys))
                     false)
        end)
  else done_ s.

(** The constructor up to the registration with [App]. The renderer's
    handle for the asset is an argument; [edgedef] is optional and an
    asset of length zero counts as absent. *)
Definition __init__ (gfx : Display) (asset0 : Asset) (pos : point)
    (edgedef0 : option Asset) : step Sprite :=
  let edge :=
    match edgedef0 with
    | Some e => if Nat.eqb (asset_len e) 0 then asset0 else e
    | None => asset0
    end in
  let s0 :=
    {| asset := asset0; edgedef := edge; GFX := gfx;
       xmin := 0; xmax := 0; ymin := 0; ymax := 0;
       _extentsdirty := false; _basevertices := [];
       _absolutevertices := []; _index := 0%Z |} in
  let s1 := set_position s0 pos in
  let s2 := with_dirty s1 true in
  let s3 := _createBaseVertices s2 in
  _setExtents s3.

End Extents.

(** *** Collisions *)

Definition collidingCircleWithPoly (circ poly : Sprite) : bool := true.

Definition collidingPolyWithPoly (self obj : Sprite) : bool := true.

End Sprite.

(** ** Sprites in the heap *)

Definition loc : Type := nat.

(** The careful overlap tests, as [collidingWith] reaches them. *)
Inductive NarrowTest :=
| CircleWithCircle (self obj : loc)
| CircleWithPoly (circ poly : loc)
| PolyWithPoly (self obj : loc).

(** What a call leaves behind: the heap, the careful tests it ran, and
    the exception raised or the value returned. *)
Record Collided := {
  heap_after : gmap loc Sprite;
  narrow : list NarrowTest;
  returned : Py.exn + bool
}.

Module Heap.
Import Py Sprite.
Local Open Scope R_scope.

Section Colliding.
Context {m : Machine}.

(** [h[l]._setExtents()] *)
Definition _setExtents (h : gmap loc Sprite) (l : loc)
    : step (gmap loc Sprite) :=
  match h !! l with
  | None => raise h ReferenceError
  | Some s =>
      let r := Sprite._setExtents s in
      (<[l := fst r]> h, snd r)
  end.

Definition centre_distance (s o : Sprite) : R :=
  let sx := (xmin s + xmax s) / 2 in
  let sy := (ymin s + ymax s) / 2 in
  let ox := (xmin o + xmax o) / 2 in
  let oy := (ymin o + ymax o) / 2 in
  sqrt ((sx - ox) ^ 2 + (sy - oy) ^ 2).

(** The gross check on two sprites with refreshed extents. *)
Definition boxes_apart (s o : Sprite) : bool :=
  gt (xmin s) (xmax o) || lt (xmax s) (xmin o)
  || gt (ymin s) (ymax o) || lt (ymax s) (ymin o).

Definition collidingWith (h : gmap loc Sprite) (self obj : loc) : Collided :=
  if decide (self = obj) then
    {| heap_after := h; narrow := []; returned := inr false |}
  else
    match _setExtents h self with
    | (h1, Some e) => {| heap_after := h1; narrow := []; returned := inl e |}
    | (h1, None) =>
    match _setExtents h1 obj with
    | (h2, Some e) => {| heap_after := h2; narrow := []; returned := inl e |}
    | (h2, None) =>
    match h2 !! self, h2 !! obj with
    | Some s, Some o =>
        if boxes_apart s o then
          {| heap_after := h2; narrow := []; returned := inr false |}
        else if is_CircleAsset (asset s) then
          if is_CircleAsset (asset o) then
            {| heap_after := h2; narrow := [CircleWithCircle self obj];
               returned :=
                 inr (le (centre_distance s o) (width s / 2 + width o / 2)) |}
          else
            {| heap_after := h2; narrow := [CircleWithPoly self obj];
               returned := inr (collidingCircleWithPoly s o) |}
        else
          if is_CircleAsset (asset o) then
            {| heap_after := h2; narrow := [CircleWithPoly obj self];
               returned := inr (collidingCircleWithPoly o s) |}
          else
            {| heap_after := h2; narrow := [PolyWithPoly self obj];
               returned := inr (collidingPolyWithPoly s o) |}
    | _, _ =>
        {| heap_after := h2; narrow := []; returned := inl ReferenceError |}
    end
    end
    end.

End Colliding.

End Heap.

(** ** Keyboard events *)

(** The raw notification of the window system. *)
Record HwEvent := {
  hw_type : string;
  keyCode : Z
}.

Record KeyEvent := {
  hwevent : HwEvent;
  type : string;
  consumed : bool;
  keynum : Z;
  key : string
}.

Module KeyEvent.
Import Py.

Definition keydown : string := "keydown".
Definition keyup : string := "keyup".
Definition keypress : string := "keypress".

Definition keys_table : list (Z * string) :=
  [(8, "backspace"); (9, "tab"); (13, "enter"); (16, "shift"); (17, "ctrl");
   (18, "alt"); (19, "pause/break"); (20, "caps lock"); (27, "escape");
   (32, "space"); (33, "page up"); (34, "page down"); (35, "end");
   (36, "home"); (37, "left arrow"); (38, "up arrow"); (39, "right arrow");
   (40, "down arrow"); (45, "insert"); (46, "delete");
   (48, "0"); (49, "1"); (50, "2"); (51, "3"); (52, "4"); (53, "5");
   (54, "6"); (55, "7"); (56, "8"); (57, "9");
   (65, "a"); (66, "b"); (67, "c"); (68, "d"); (69, "e"); (70, "f");
   (71, "g"); (72, "h"); (73, "i"); (74, "j"); (75, "k"); (76, "l");
   (77, "m"); (78, "n"); (79, "o"); (80, "p"); (81, "q"); (82, "r");
   (83, "s"); (84, "t"); (85, "u"); (86, "v"); (87, "w"); (88, "x");
   (89, "y"); (90, "z");
   (91, "left window key"); (92, "right window key"); (93, "select key");
   (96, "numpad 0"); (97, "numpad 1"); (98, "numpad 2"); (99, "numpad 3");
   (100, "numpad 4"); (101, "numpad 5"); (102, "numpad 6");
   (103, "numpad 7"); (104, "numpad 8"); (105, "numpad 9");
   (106, "multiply"); (107, "add"); (109, "subtract");
   (110, "decimal point"); (111, "divide");
   (112, "f1"); (113, "f2"); (114, "f3"); (115, "f4"); (116, "f5");
   (117, "f6"); (118, "f7"); (119, "f8"); (120, "f9"); (121, "f10");
   (122, "f11"); (123, "f12");
   (144, "num lock"); (145, "scroll lock");
   (186, "semicolon"); (187, "equal sign"); (188, "comma"); (189, "dash");
   (190, "period"); (191, "forward slash"); (192, "grave accent");
   (219, "open bracket"); (220, "back slash"); (221, "close bracket");
   (222, "single quote")]%Z.

(** Dictionary mapping key code integers to textual key description. *)
Definition keys : gmap Z string := list_to_map keys_table.

(** [_Event.__init__] followed by the two assignments of
    [KeyEvent.__init__]; the lookup of an unmapped code raises. *)
Definition __init__ (hw : HwEvent) : exn + KeyEvent :=
  match keys !! keyCode hw with
  | Some name =>
      inr {| hwevent := hw; type := hw_type hw; consumed := false;
             keynum := keyCode hw; key := name |}
  | None => inl KeyError
  end.

End KeyEvent.

(** ** The application: registry and event tables *)

(** A callback is a function object, known by its identity. *)
Definition callback : Type := nat.

(** The second component of a keyboard subscription: a key name, the
    wildcard ["*"], or whatever else was passed; the numeric [0] is what
    an unmapped key code is looked up under. *)
Inductive keyname :=
| Name (s : string)
| Num (z : Z).

(** Keys of [_eventdict]: the pair [(eventtype, key)] for the keyboard,
    the bare [eventtype] for the mouse. *)
Inductive evkey :=
| KeyKey (eventtype : string) (k : keyname)
| MouseKey (eventtype : string).

#[global] Instance keyname_eq_dec : EqDecision keyname.
Proof. solve_decision. Defined.

#[global] Instance keyname_countable : Countable keyname.
Proof.
refine (inj_countable'
  (fun k => match k with Name s => inl s | Num z => inr z end)
  (fun c => match c with inl s => Name s | inr z => Num z end) _).
intros []; reflexivity.
Defined.

#[global] Instance evkey_eq_dec : EqDecision evkey.
Proof. solve_decision. Defined.

#[global] Instance evkey_countable : Countable evkey.
Proof.
refine (inj_countable'
  (fun k => match k with KeyKey t n => inl (t, n) | MouseKey t => inr t end)
  (fun c => match c with inl (t, n) => KeyKey t n | inr t => MouseKey t end) _).
intros []; reflexivity.
Defined.

(** The window of [sysdeps]: [GFX_Window] keeps a stage of display
    objects, here named by the sprite that owns them. Its methods are
    [bind], [add], [remove], [animate] and [destroy]. *)
Record GFX_Window := {
  _stage : list loc;
  win_width : R;
  win_height : R
}.

Record App := {
  spritelist : list loc;
  _eventdict : gmap evkey (list callback);
  _spritesdict : gmap string (list loc);
  _spritesadded : bool;
  _win : option GFX_Window
}.

(** What a dispatch leaves behind: the application state, the callbacks
    it invoked in order, the event record if one was built, and the
    exception raised, if any. *)
Record Dispatched := {
  app_after : App;
  invoked : list callback;
  event_after : option KeyEvent;
  raised : option Py.exn
}.

Module Window.

(** [GFX_Window.add]: Modelled from the spec: the stage of the renderer
    takes the display object as its last child. *)
Definition add (w : GFX_Window) (obj : loc) : GFX_Window :=
  {| _stage := _stage w ++ [obj];
     win_width := win_width w; win_height := win_height w |}.

(** [GFX_Window.remove]: Modelled from the spec: the stage of the
    renderer drops the display object. *)
Definition remove (w : GFX_Window) (obj : loc) : GFX_Window :=
  {| _stage := filter (fun o => o <> obj) (_stage w);
     win_width := win_width w; win_height := win_height w |}.

(** [GFX_Window(width, height, onclose)]: a size of zero is replaced by
    that of the canvas. *)
Definition __init__ (canvas : point) (width height : R) : GFX_Window :=
  {| _stage := [];
     win_width := if Req_dec_T width 0 then Py.int (fst canvas) else width;
     win_height := if Req_dec_T height 0 then Py.int (snd canvas) else height |}.

End Window.

Module App.
Import Py.

Definition with_spritelist (a : App) (l : list loc) : App :=
  {| spritelist := l; _eventdict := _eventdict a;
     _spritesdict := _spritesdict a; _spritesadded := _spritesadded a;
     _win := _win a |}.

Definition with_eventdict (a : App) (d : gmap evkey (list callback)) : App :=
  {| spritelist := spritelist a; _eventdict := d;
     _spritesdict := _spritesdict a; _spritesadded := _spritesadded a;
     _win := _win a |}.

Definition with_spritesdict (a : App) (d : gmap string (list loc)) : App :=
  {| spritelist := spritelist a; _eventdict := _eventdict a;
     _spritesdict := d; _spritesadded := _spritesadded a;
     _win := _win a |}.

Definition with_spritesadded (a : App) (b : bool) : App :=
  {| spritelist := spritelist a; _eventdict := _eventdict a;
     _spritesdict := _spritesdict a; _spritesadded := b;
     _win := _win a |}.

Definition with_win (a : App) (w : option GFX_Window) : App :=
  {| spritelist := spritelist a; _eventdict := _eventdict a;
     _spritesdict := _spritesdict a; _spritesadded := _spritesadded a;
     _win := w |}.

(** The class attributes as the class statement leaves them. *)
Definition initial : App :=
  {| spritelist := []; _eventdict := ∅; _spritesdict := ∅;
     _spritesadded := false; _win := None |}.

(** *** Subscriptions *)

Definition listen (a : App) (k : evkey) (cb : callback) : App :=
  let evtlist := default [] (_eventdict a !! k) in
  let evtlist := if decide (cb ∈ evtlist) then evtlist else evtlist ++ [cb] in
  with_eventdict a (<[k := evtlist]> (_eventdict a)).

Definition listenKeyEvent (a : App) (eventtype : string) (k : keyname)
    (cb : callback) : App :=
  listen a (KeyKey eventtype k) cb.

Definition listenMouseEvent (a : App) (eventtype : string) (cb : callback)
    : App :=
  listen a (MouseKey eventtype) cb.

Definition unlisten (a : App) (k : evkey) (cb : callback) : step App :=
  match _eventdict a !! k with
  | None => raise a KeyError
  | Some evtlist =>
      match list_remove cb evtlist with
      | None => raise a ValueError
      | Some l => done_ (with_eventdict a (<[k := l]> (_eventdict a)))
      end
  end.

Definition unlistenKeyEvent (a : App) (eventtype : string) (k : keyname)
    (cb : callback) : step App :=
  unlisten a (KeyKey eventtype k) cb.

Definition unlistenMouseEvent (a : App) (eventtype : string) (cb : callback)
    : step App :=
  unlisten a (MouseKey eventtype) cb.

(** *** Routing *)

Section Routing.

(** What each callback does to the event record it is handed. *)
Variable call : callback -> KeyEvent -> KeyEvent.

(** The body of the loop of [_routeEvent], over the callbacks in the
    order they are visited. *)
Fixpoint visit (event : KeyEvent) (cbs : list callback)
    : KeyEvent * list callback :=
  match cbs with
  | [] => (event, [])
  | cb :: rest =>
      if consumed event then visit event rest
      else
        let r := visit (call cb event) rest in
        (fst r, cb :: snd r)
  end.

Definition _routeEvent (event : KeyEvent) (evtlist : list callback)
    : KeyEvent * list callback :=
  visit event (rev evtlist).

(** [evtlist] is the very list stored under the specific key when there
    is one, so extending it extends the stored list. *)
Definition _keyEvent (a : App) (hw : HwEvent) : Dispatched :=
  let k :=
    KeyKey (hw_type hw)
      match KeyEvent.keys !! keyCode hw with
      | Some name => Name name
      | None => Num 0
      end in
  let star := default [] (_eventdict a !! KeyKey (hw_type hw) (Name "*")) in
  let evtlist := default [] (_eventdict a !! k) ++ star in
  let a1 :=
    match _eventdict a !! k with
    | Some _ => with_eventdict a (<[k := evtlist]> (_eventdict a))
    | None => a
    end in
  if (0 <? length evtlist)%nat then
    match KeyEvent.__init__ hw with
    | inl e =>
        {| app_after := a1; invoked := []; event_after := None;
           raised := Some e |}
    | inr evt =>
        let r := _routeEvent evt evtlist in
        {| app_after := a1; invoked := snd r; event_after := Some (fst r);
           raised := None |}
    end
  else
    {| app_after := a1; invoked := []; event_after := None; raised := None |}.

End Routing.

(** *** The registry *)

Section Registry.

(** [type(obj)] of a sprite. *)
Variable type_of : loc -> string.

Definition _add (a : App) (obj : loc) : App :=
  let a1 :=
    match _win a with
    | Some w => with_win a (Some (Window.add w obj))
    | None => a
    end in
  let a2 := with_spritelist a1 (spritelist a1 ++ [obj]) in
  let a3 :=
    match _spritesdict a2 !! type_of obj with
    | Some _ => a2
    | None => with_spritesdict a2 (<[type_of obj := []]> (_spritesdict a2))
    end in
  with_spritesdict a3
    (<[type_of obj := default [] (_spritesdict a3 !! type_of obj) ++ [obj]]>
       (_spritesdict a3)).

Definition _remove (a : App) (obj : loc) : step App :=
  let a1 :=
    match _win a with
    | Some w => with_win a (Some (Window.remove w obj))
    | None => a
    end in
  match list_remove obj (spritelist a1) with
  | None => raise a1 ValueError
  | Some l =>
      let a2 := with_spritelist a1 l in
      match _spritesdict a2 !! type_of obj with
      | None => raise a2 KeyError
      | Some bucket =>
          match list_remove obj bucket with
          | None => raise a2 ValueError
          | Some b =>
              done_ (with_spritesdict a2
                       (<[type_of obj := b]> (_spritesdict a2)))
          end
      end
  end.

(** [Sprite.destroy], as far as the application state goes. *)
Definition destroy (a : App) (obj : loc) : step App := _remove a obj.

Definition getSpritesbyClass (a : App) (sclass : string) : list loc :=
  default [] (_spritesdict a !! sclass).

(** [App.__init__]: opens the window unless one is open already or the
    number of arguments is neither zero nor two. *)
Definition __init__ (canvas : point) (a : App) (args : list R) : App :=
  match _win a, args with
  | None, [] | None, [_; _] =>
      let w :=
        match args with
        | [w; h] => Window.__init__ canvas w h
        | _ => Window.__init__ canvas 0 0
        end in
      let a1 := with_win a (Some w) in
      if negb (_spritesadded a1) && (0 <? length (spritelist a1))%nat then
        let a2 := with_spritesadded a1 true in
        with_win a2 (Some (fold_left Window.add (spritelist a2) w))
      else a1
  | _, _ => a
  end.

(** The loop [for s in list(App.spritelist): s.destroy()]. *)
Fixpoint destroy_all (a : App) (copy : list loc) : step App :=
  match copy with
  | [] => done_ a
  | s :: rest => and_then (destroy a s) (fun a' => destroy_all a' rest)
  end.

(** [GFX_Window] has no method [unbind]: with a window open the first
    statement of the branch raises. *)
Definition _destroy (a : App) : step App :=
  match _win a with
  | Some _ => raise a AttributeError
  | None =>
      let a1 := with_win a None in
      and_then (destroy_all a1 (spritelist a1)) (fun a2 =>
        let a3 := with_spritelist a2 [] in
        let a4 := with_spritesdict a3 ∅ in
        let a5 := with_eventdict a4 ∅ in
        done_ (with_spritesadded a5 false))
  end.

(** The state [_add] and [_remove] maintain: the buckets of
    [_spritesdict] list the sprites of [spritelist] class by class, in
    the same order. *)
Definition consistent (a : App) : Prop :=
  forall c : string,
    default [] (_spritesdict a !! c)
    = filter (fun l => type_of l = c) (spritelist a).

End Registry.

End App.

(** ** Frames *)

(** [Frame]: a rectangle, kept in the renderer's [GFX_Rectangle]. *)
Record Frame := {
  frame_x : R;
  frame_y : R;
  frame_w : R;
  frame_h : R
}.

Module Frame.
Import Py.
Local Open Scope R_scope.

Definition center (f : Frame) : point :=
  (frame_x f + floordiv (frame_w f) 2, frame_y f + floordiv (frame_h f) 2).

Definition set_center (f : Frame) (value : point) : Frame :=
  let c := center f in
  let f1 :=
    {| frame_x := frame_x f + (fst value - fst c); frame_y := frame_y f;
       frame_w := frame_w f; frame_h := frame_h f |} in
  {| frame_x := frame_x f1; frame_y := frame_y f1 + (snd value - snd c);
     frame_w := frame_w f1; frame_h := frame_h f1 |}.

End Frame.

(** ** Lists of textures *)

Module AssetList.
Import Py.
Local Open Scope R_scope.

Section Iteration.
Context {A : Type}.

(** One call of [Iter.__next__] at counter [i]: the end of the
    iteration, or the next counter with the item fetched or the
    exception of the fetch. The counter is advanced before the list is
    read. *)
Definition next_ (GFXlist : list A) (i : nat) : option (nat * (exn + A)) :=
  if Nat.eqb i (length GFXlist) then None
  else
    Some (S i,
          match nth_error GFXlist (S i) with
          | Some g => inr g
          | None => inl IndexError
          end).

(** [list(asset)]: the items produced until the iteration ends or
    raises; at most [fuel] calls of [__next__]. *)
Fixpoint drain (GFXlist : list A) (i fuel : nat) : list A * option exn :=
  match fuel with
  | O => ([], None)
  | S fuel' =>
      match next_ GFXlist i with
      | None => ([], None)
      | Some (_, inl e) => ([], Some e)
      | Some (i', inr g) =>
          let r := drain GFXlist i' fuel' in
          (g :: fst r, snd r)
      end
  end.

Definition iterate (GFXlist : list A) : list A * option exn :=
  drain GFXlist 0 (S (length GFXlist)).

End Iteration.

(** [asset[i]] on a list of [n] textures: the position read, counted
    from the front; negative indices count from the back. *)
Definition getitem (n : nat) (i : Z) : option nat :=
  if ((0 <=? i) && (i <? Z.of_nat n))%Z then Some (Z.to_nat i)
  else if ((- Z.of_nat n <=? i) && (i <? 0))%Z
       then Some (Z.to_nat (Z.of_nat n + i))
       else None.

(** The frames [ImageAsset.append] cuts out of a sheet: one per image,
    stepped by the frame size plus the margin along the direction. *)
Definition frames (frame : Frame) (qty : nat) (direction : string)
    (margin : R) : list Frame :=
  map (fun i : nat =>
         let dx :=
           if String.eqb direction "horizontal"
           then frame_w frame + margin else 0 in
         let dy :=
           if String.eqb direction "horizontal" then 0
           else if String.eqb direction "vertical"
                then frame_h frame + margin else 0 in
         {| frame_x := frame_x frame + dx * INR i;
            frame_y := frame_y frame + dy * INR i;
            frame_w := frame_w frame; frame_h := frame_h frame |})
      (seq 0 qty).

(** [ImageAsset.append]: [texture] is the size of the image the url
    names. With no image to add nothing changes. *)
Definition append (a : Asset) (texture : point) (frame : option Frame)
    (qty : nat) : Asset :=
  match a, qty with
  | ImageAsset w h n, S _ =>
      match frame with
      | Some f => ImageAsset (frame_w f) (frame_h f) (n + qty)
      | None => ImageAsset (fst texture) (snd texture) (n + qty)
      end
  | _, _ => a
  end.

(** [ImageAsset(url, frame, qty)] *)
Definition ImageAsset_new (texture : point) (frame : option Frame)
    (qty : nat) : Asset :=
  append (ImageAsset 0 0 0) texture frame qty.

End AssetList.

(** ** The images of a sprite *)

(** What a change of image leaves behind: the sprite, the position of
    the texture handed to the renderer if one was, and the exception
    raised, if any. *)
Record Shown := {
  shown_sprite : Sprite;
  shown_texture : option nat;
  shown_raised : option Py.exn
}.

Module Images.
Import Py.

Definition with_index (s : Sprite) (i : Z) : Sprite :=
  {| asset := asset s; edgedef := edgedef s; GFX := GFX s;
     xmin := xmin s; xmax := xmax s; ymin := ymin s; ymax := ymax s;
     _extentsdirty := _extentsdirty s; _basevertices := _basevertices s;
     _absolutevertices := _absolutevertices s; _index := i |}.

(** [self.GFX.texture = self.asset[i]] *)
Definition show (s : Sprite) (i : Z) : Shown :=
  match AssetList.getitem (asset_len (asset s)) i with
  | Some k =>
      {| shown_sprite := s; shown_texture := Some k; shown_raised := None |}
  | None =>
      {| shown_sprite := s; shown_texture := None;
         shown_raised := Some IndexError |}
  end.

Definition firstImage (s : Sprite) : Shown := show s 0.

Definition lastImage (s : Sprite) : Shown := show s (-1).

Definition nextImage (s : Sprite) (wrap : bool) : Shown :=
  let i := (_index s + 1)%Z in
  let i :=
    if (Z.of_nat (asset_len (asset s)) <=? i)%Z then
      if wrap then 0%Z else (Z.of_nat (asset_len (asset s)) - 1)%Z
    else i in
  show (with_index s i) i.

Definition prevImage (s : Sprite) (wrap : bool) : Shown :=
  let i := (_index s - 1)%Z in
  let i :=
    if (i <? 0)%Z then
      if wrap then (Z.of_nat (asset_len (asset s)) - 1)%Z else 0%Z
    else i in
  show (with_index s i) i.

(** The setter of [index]: a failed lookup falls back to the first
    image, whose own lookup is not guarded. *)
Definition set_index (s : Sprite) (value : Z) : Shown :=
  match AssetList.getitem (asset_len (asset s)) value with
  | Some k =>
      {| shown_sprite := with_index s value; shown_texture := Some k;
         shown_raised := None |}
  | None => show (with_index s 0) 0
  end.

Definition setImage (s : Sprite) (index : Z) : Shown := set_index s index.

End Images.

(** ** Collisions with many sprites *)

(** What [collidingWithSprites] leaves behind. *)
Record Filtered := {
  filtered_heap : gmap loc Sprite;
  filtered : Py.exn + list loc
}.

Module Group.
Import Py.

Section Filtering.
Context {m : Machine}.

(** [list(filter(self.collidingWith, slist))] *)
Fixpoint filter_colliding (h : gmap loc Sprite) (self : loc)
    (slist : list loc) : Filtered :=
  match slist with
  | [] => {| filtered_heap := h; filtered := inr [] |}
  | obj :: rest =>
      let c := Heap.collidingWith h self obj in
      match returned c with
      | inl e => {| filtered_heap := heap_after c; filtered := inl e |}
      | inr b =>
          let r := filter_colliding (heap_after c) self rest in
          {| filtered_heap := filtered_heap r;
             filtered :=
               match filtered r with
               | inl e => inl e
               | inr l => inr (if b then obj :: l else l)
               end |}
      end
  end.

Definition collidingWithSprites (h : gmap loc Sprite) (a : App) (self : loc)
    (sclass : option string) : Filtered :=
  let slist :=
    match sclass with
    | None => spritelist a
    | Some c => App.getSpritesbyClass a c
    end in
  filter_colliding h self slist.

End Filtering.

End Group.

(** ** Scenarios *)

Module Scenario.
Import Py.
Local Open Scope R_scope.

(** Whether a sprite has the default anchor and is not turned. *)
Definition default_pose (fx fy rot : R) : bool :=
  if Req_dec_T fx 0 then
    if Req_dec_T fy 0 then if Req_dec_T rot 0 then true else false
    else false
  else false.

(** The arithmetic of IEEE doubles where the scenarios need it: for the
    default anchor without rotation, the two products at the widths 14
    and 100 as CPython prints them; the exact products elsewhere. *)
Definition doubles : Machine :=
  {| L_cos_th fx fy rot D :=
       if default_pose fx fy rot then
         if Req_dec_T D 14 then 7.000000000000001
         else if Req_dec_T D 100 then 50.00000000000001
         else Sprite.exact_L_cos_th fx fy rot D
       else Sprite.exact_L_cos_th fx fy rot D;
     L_sin_th fx fy rot D :=
       if default_pose fx fy rot then
         if Req_dec_T D 14 then -6.999999999999999
         else if Req_dec_T D 100 then -50
         else Sprite.exact_L_sin_th fx fy rot D
       else Sprite.exact_L_sin_th fx fy rot D |}.

Section Sprites.
Context {m : Machine}.

(** [Sprite(CircleAsset(r), pos)], drawn at its diameter. *)
Definition circle (r : R) (pos : point) : Sprite :=
  fst (Sprite.__init__ (GFX_Sprite (2 * r) (2 * r)) (CircleAsset r) pos None).

(** Two circle sprites placed at [(0,0)] and [(d,0)]. *)
Definition two_circles (r1 r2 d : R) : gmap loc Sprite :=
  <[1%nat := circle r1 (0, 0)]> (<[2%nat := circle r2 (d, 0)]> ∅).

(** Two circle sprites whose circles are centred at [(0,0)] and
    [(d,0)]: with the default anchor a sprite is drawn right of and
    below its position, so each is placed one radius left of and above
    the centre of its circle. *)
Definition two_centred_circles (r1 r2 d : R) : gmap loc Sprite :=
  <[1%nat := circle r1 (- r1, - r1)]>
    (<[2%nat := circle r2 (d - r2, - r2)]> ∅).

(** [Sprite(CircleAsset(50), pos, RectangleAsset(100, 100))] *)
Definition boxed_circle (pos : point) : Sprite :=
  fst (Sprite.__init__ (GFX_Sprite 100 100) (CircleAsset 50) pos
         (Some (RectangleAsset 100 100))).

Definition two_boxed_circles : gmap loc Sprite :=
  <[1%nat := boxed_circle (0, 0)]> (<[2%nat := boxed_circle (90, 90)]> ∅).

(** [Sprite(RectangleAsset(w, h), pos)] *)
Definition rectangle (w h : R) (pos : point) : Sprite :=
  fst (Sprite.__init__ (GFX_Sprite w h) (RectangleAsset w h) pos None).

(** The 100 by 100 rectangle at [(10,10)] after [center = (0.5, 0.5)]
    and a refresh of its extents. *)
Definition centred_square : Sprite :=
  fst (Sprite._setExtents
         (Sprite.set_center (rectangle 100 100 (10, 10)) (0.5, 0.5))).

(** A 100 by 50 rectangle turned by half a turn, extents refreshed. *)
Definition turned : Sprite :=
  fst (Sprite._setExtents (Sprite.set_rotation (rectangle 100 50 (0, 0)) PI)).

(** ... and turned back. *)
Definition turned_back : Sprite := Sprite.set_rotation turned 0.

End Sprites.

(** A sprite with clean extents. *)
Definition block (x0 x1 y0 y1 : R) : Sprite :=
  {| asset := RectangleAsset (x1 - x0) (y1 - y0);
     edgedef := RectangleAsset (x1 - x0) (y1 - y0);
     GFX := Sprite.set_GFX_position (GFX_Sprite (x1 - x0) (y1 - y0)) (x0, y0);
     xmin := x0; xmax := x1; ymin := y0; ymax := y1;
     _extentsdirty := false;
     _basevertices := [(0, 0); (0, y1 - y0); (x1 - x0, y1 - y0); (x1 - x0, 0)];
     _absolutevertices := [(x0, y0); (x0, y1); (x1, y1); (x1, y0)];
     _index := 0%Z |}.

(** A sprite on a sheet of four 32 by 32 images, the first one shown:
    [Sprite(ImageAsset(url, Frame(0,0,32,32), 4))]. *)
Definition animated : Sprite :=
  {| asset := ImageAsset 32 32 4; edgedef := ImageAsset 32 32 4;
     GFX := GFX_Sprite 32 32;
     xmin := 0; xmax := 32; ymin := 0; ymax := 32;
     _extentsdirty := false;
     _basevertices := [(0, 0); (0, 32); (32, 32); (32, 0)];
     _absolutevertices := [(0, 0); (0, 32); (32, 32); (32, 0)];
     _index := 0%Z |}.

(** Two sprites with clean extents, far apart. *)
Definition two_blocks : gmap loc Sprite :=
  <[1%nat := block 0 10 0 10]> (<[2%nat := block 20 30 0 10]> ∅).

(** Callbacks: [1] marks every event consumed, [2] leaves it alone. *)
Definition specific : callback := 1%nat.
Definition wildcard : callback := 2%nat.

Definition call (cb : callback) (e : KeyEvent) : KeyEvent :=
  if Nat.eqb cb specific then
    {| hwevent := hwevent e; type := type e; consumed := true;
       keynum := keynum e; key := key e |}
  else e.

(** [listenKeyEvent('keydown', '*', wildcard)] then
    [listenKeyEvent('keydown', 'space', specific)]. *)
Definition subscribed : App :=
  App.listenKeyEvent
    (App.listenKeyEvent App.initial KeyEvent.keydown (Name "*") wildcard)
    KeyEvent.keydown (Name "space") specific.

Definition space_down : HwEvent := {| hw_type := "keydown"; keyCode := 32 |}.

(** The event record built for [space_down]. *)
Definition space_event : KeyEvent :=
  {| hwevent := space_down; type := "keydown"; consumed := false;
     keynum := 32; key := "space" |}.

(** Callbacks that leave the event alone. *)
Definition silent (cb : callback) (e : KeyEvent) : KeyEvent := e.

(** Key code 255 has no entry in [KeyEvent.keys]. *)
Definition unmapped_down : HwEvent := {| hw_type := "keydown"; keyCode := 255 |}.

(** Every sprite is a plain [Sprite]. *)
Definition plain (l : loc) : string := "Sprite".

(** One sprite registered, one subscription, then [App()]. *)
Definition running : App :=
  App.__init__ (800, 600)
    (App.listenKeyEvent (App._add plain App.initial 1%nat)
       KeyEvent.keydown (Name "space") specific)
    [].

End Scenario.

(** * Properties *)

(** ** Arithmetic of the embedding *)

Section NumberFacts.
Import Py.
Local Open Scope R_scope.

Lemma Int_part_0 : Int_part 0 = 0%Z.
Proof.
unfold Int_part. rewrite <- (up_tech 0 0);
  [reflexivity | lra | change (IZR (0 + 1)) with 1; lra].
Qed.

Lemma Int_part_bounds (r : R) : IZR (Int_part r) <= r < IZR (Int_part r) + 1.
Proof.
unfold Int_part. destruct (archimed r) as [H1 H2].
rewrite minus_IZR. change (IZR 1) with 1. lra.
Qed.

Lemma int_nonneg (r : R) : 0 <= r -> int r = IZR (Int_part r).
Proof.
intros H. unfold int. destruct (Rle_dec 0 r); [reflexivity | contradiction].
Qed.

Lemma int_opp_nonneg (r : R) : 0 <= r -> int (- r) = - IZR (Int_part r).
Proof.
intros H. unfold int. destruct (Rle_dec 0 (- r)) as [H0|H0].
- assert (r = 0) as -> by lra. rewrite Ropp_0, Int_part_0.
  change (IZR 0) with 0. lra.
- rewrite Ropp_involutive. reflexivity.
Qed.

Lemma int_0 : int 0 = 0.
Proof. rewrite int_nonneg by lra. rewrite Int_part_0. reflexivity. Qed.

Lemma floordiv_int (D : R) : 0 <= D -> int (D / 2) - floordiv D 2 = 0.
Proof. intros H. unfold floordiv. rewrite int_nonneg by lra. lra. Qed.

Lemma floordiv_int_opp (D : R) :
  0 <= D -> - int (- (D / 2)) - floordiv D 2 = 0.
Proof. intros H. unfold floordiv. rewrite int_opp_nonneg by lra. lra. Qed.

Lemma int_in_unit (k : Z) (r : R) :
  (0 <= k)%Z -> IZR k <= r < IZR k + 1 -> int r = IZR k.
Proof.
intros Hk H. assert (0 <= IZR k) by (apply IZR_le; exact Hk).
rewrite int_nonneg by lra. f_equal. symmetry. apply Int_part_spec. lra.
Qed.

Lemma int_in_unit_opp (k : Z) (r : R) :
  (0 <= k)%Z -> - IZR k - 1 < r <= - IZR k -> int r = - IZR k.
Proof.
intros Hk H. assert (0 <= IZR k) by (apply IZR_le; exact Hk).
replace r with (- - r) by apply Ropp_involutive.
rewrite int_opp_nonneg by lra. f_equal. f_equal. symmetry.
apply Int_part_spec. lra.
Qed.

Lemma floordiv_2 (q : Z) (a : R) : a = 2 * IZR q -> floordiv a 2 = IZR q.
Proof.
intros ->. unfold floordiv. f_equal. symmetry. apply Int_part_spec. lra.
Qed.

Lemma atan2_default_anchor : atan2 (0 - 0.5) (0.5 - 0) = - (PI / 4).
Proof.
unfold atan2. destruct (Rlt_dec 0 (0.5 - 0)) as [_|H]; [|exfalso; lra].
replace ((0 - 0.5) / (0.5 - 0)) with (Ropp 1) by lra.
rewrite atan_opp, atan_1. reflexivity.
Qed.

Lemma atan2_0_0 : atan2 (0.5 - 0.5) (0.5 - 0.5) = 0.
Proof.
unfold atan2.
destruct (Rlt_dec 0 (0.5 - 0.5)); [exfalso; lra|].
destruct (Rlt_dec (0.5 - 0.5) 0); [exfalso; lra|].
reflexivity.
Qed.

Lemma sqrt_half_sq : sqrt ((0 - 0.5) ^ 2 + (0 - 0.5) ^ 2) = / sqrt 2.
Proof.
replace ((0 - 0.5) ^ 2 + (0 - 0.5) ^ 2) with (/ 2) by lra.
apply sqrt_inv.
Qed.

Lemma sqrt2_sq : sqrt 2 * sqrt 2 = 2.
Proof. apply sqrt_sqrt. lra. Qed.

Lemma truthy_0 : truthy 0 = false.
Proof. unfold truthy. destruct (Req_dec_T 0 0); [reflexivity | lra]. Qed.

Lemma truthy_nonzero (v : R) : v <> 0 -> truthy v = true.
Proof.
intros H. unfold truthy. destruct (Req_dec_T v 0); [contradiction | reflexivity].
Qed.

Lemma le_true (a b : R) : le a b = true <-> a <= b.
Proof. unfold le. destruct (Rle_dec a b); split; intros; try easy. Qed.

Lemma lt_true (a b : R) : lt a b = true <-> a < b.
Proof. unfold lt. destruct (Rlt_dec a b); split; intros; try easy. Qed.

Lemma lt_false (a b : R) : lt a b = false <-> b <= a.
Proof.
unfold lt. destruct (Rlt_dec a b); split; intros; try easy; lra.
Qed.

Lemma min_of_le_max_of (a : R) (l : list R) : min_of a l <= max_of a l.
Proof.
unfold min_of, max_of.
assert (forall l lo hi, lo <= hi -> fold_left Rmin l lo <= fold_left Rmax l hi) as H.
{ clear. induction l as [|b l IH]; intros lo hi Hle; simpl; [exact Hle|].
  apply IH. unfold Rmin, Rmax.
  destruct (Rle_dec lo b), (Rle_dec hi b); lra. }
apply H. lra.
Qed.

End NumberFacts.

Ltac rcase_inner :=
  match goal with
  | |- context [Rle_dec ?a ?b] =>
      lazymatch a with
      | context [Rle_dec] => fail
      | _ => lazymatch b with
             | context [Rle_dec] => fail
             | _ => destruct (Rle_dec a b)
             end
      end
  end.

Ltac rminmax :=
  unfold Py.min_of, Py.max_of, fold_left, Rmin, Rmax;
  repeat rcase_inner; try lra.

Ltac splits := repeat match goal with |- _ /\ _ => split end.

Ltac sprite_fields :=
  cbv [Sprite.__init__ Sprite.rotation Sprite.scale Sprite.fxcenter
       Sprite.fycenter Sprite.center Sprite.width Sprite.height Sprite.x
       Sprite.y Sprite.position Sprite._createBaseVertices
       Sprite.with_basevertices Sprite.with_dirty
       Sprite.with_absolutevertices Sprite.with_extents Sprite.with_GFX
       Sprite.set_position Sprite.set_x Sprite.set_y Sprite.set_center
       Sprite.set_fxcenter Sprite.set_fycenter Sprite.set_width
       Sprite.set_height Sprite.set_GFX_position Sprite.set_GFX_anchor
       Sprite.set_GFX_rotation Sprite.set_GFX_scale Sprite.set_GFX_width
       Sprite.set_GFX_height
       asset edgedef GFX xmin xmax ymin ymax _extentsdirty _basevertices
       _absolutevertices _index
       GFX_position GFX_width GFX_height GFX_anchor GFX_scale GFX_rotation
       GFX_visible GFX_Sprite is_CircleAsset asset_len Nat.eqb fst snd].

(** ** Vertices and extents *)

Section SpriteFacts.
Import Py.
Local Open Scope R_scope.
Context {m : Machine}.

(** At scale one nothing is multiplied: the outline is centred on the
    anchor, turned and moved to the position. *)
Lemma xformVertices_unscaled (s : Sprite) (sy : R) :
  GFX_scale (GFX s) = Some (1, sy) ->
  Sprite._xformVertices s =
    done_ (Sprite.with_absolutevertices s
      (map (fun p : point =>
         (Sprite.x s
          + (fst p - Sprite.width s * Sprite.fxcenter s) * cos (Sprite.rotation s)
          + (snd p - Sprite.height s * Sprite.fycenter s) * sin (Sprite.rotation s),
          Sprite.y s
          + - (fst p - Sprite.width s * Sprite.fxcenter s) * sin (Sprite.rotation s)
          + (snd p - Sprite.height s * Sprite.fycenter s) * cos (Sprite.rotation s)))
         (_basevertices s))).
Proof.
intros Hs. unfold Sprite._xformVertices, Sprite.scale. rewrite Hs.
destruct (Req_dec_T 1 0) as [H|_]; [lra|].
destruct (Req_dec_T 1 1) as [_|H]; [|lra].
unfold done_. f_equal. f_equal. rewrite map_map.
apply map_ext. intros [px py]. cbv [fst snd]. f_equal; field.
Qed.

(** Extents of a box outline at scale one when the sine of the rotation
    vanishes (no turn, or half a turn). *)
Lemma setExtents_box (s : Sprite) (sy w h c : R) :
  _extentsdirty s = true ->
  is_CircleAsset (asset s) = false ->
  GFX_scale (GFX s) = Some (1, sy) ->
  _basevertices s = [(0, 0); (0, h); (w, h); (w, 0)] ->
  cos (Sprite.rotation s) = c -> sin (Sprite.rotation s) = 0 ->
  let ax := Sprite.width s * Sprite.fxcenter s in
  let ay := Sprite.height s * Sprite.fycenter s in
  let s' := fst (Sprite._setExtents s) in
  snd (Sprite._setExtents s) = None
  /\ xmin s' = Rmin (Sprite.x s - ax * c) (Sprite.x s + (w - ax) * c)
  /\ xmax s' = Rmax (Sprite.x s - ax * c) (Sprite.x s + (w - ax) * c)
  /\ ymin s' = Rmin (Sprite.y s - ay * c) (Sprite.y s + (h - ay) * c)
  /\ ymax s' = Rmax (Sprite.y s - ay * c) (Sprite.y s + (h - ay) * c)
  /\ _extentsdirty s' = false
  /\ GFX s' = GFX s /\ asset s' = asset s /\ edgedef s' = edgedef s
  /\ _basevertices s' = _basevertices s.
Proof.
intros Hd Hc Hs Hb Hcos Hsin ax ay s'. subst s'.
unfold Sprite._setExtents. rewrite Hd, Hc.
rewrite (xformVertices_unscaled s sy Hs). rewrite Hb, Hcos, Hsin.
fold ax ay.
cbv [and_then done_ Sprite.with_absolutevertices _absolutevertices map fst snd
     Sprite.with_dirty Sprite.with_extents xmin xmax ymin ymax _extentsdirty
     GFX asset edgedef _basevertices].
repeat split; try assumption; rminmax.
Qed.

(** With the default anchor and no rotation the exact products are half
    the width and its opposite. *)
Lemma exact_products_default (D : R) :
  Sprite.exact_L_cos_th 0 0 0 D = D / 2
  /\ Sprite.exact_L_sin_th 0 0 0 D = - (D / 2).
Proof.
unfold Sprite.exact_L_cos_th, Sprite.exact_L_sin_th. cbv zeta.
rewrite atan2_default_anchor, sqrt_half_sq, Rplus_0_r, cos_neg, sin_neg.
rewrite cos_PI4, sin_PI4.
assert (Hs := sqrt2_sq).
assert (Hi : / sqrt 2 * / sqrt 2 = / 2)
  by (rewrite <- Rinv_mult, Hs; reflexivity).
split; unfold Rdiv; rewrite <- Hi; ring.
Qed.

(** Truncating the exact products leaves nothing: [int(D/2) - D//2] and
    [-int(-D/2) - D//2] vanish. *)
Lemma exact_products_truncated (D : R) :
  0 <= D ->
  int (Sprite.exact_L_cos_th 0 0 0 D) - floordiv D 2 = 0
  /\ - int (Sprite.exact_L_sin_th 0 0 0 D) - floordiv D 2 = 0.
Proof.
intros HD. destruct (exact_products_default D) as [-> ->].
split; [apply floordiv_int | apply floordiv_int_opp]; exact HD.
Qed.

(** Extents of a circle with the default anchor, not turned: a square
    of the width of the sprite; its upper left corner is the position,
    shifted by what the truncation of the two products leaves. *)
Lemma setExtents_circle (s : Sprite) :
  _extentsdirty s = true ->
  is_CircleAsset (asset s) = true ->
  GFX_anchor (GFX s) = Some (0, 0) ->
  Sprite.rotation s = 0 ->
  Sprite._setExtents s =
    done_ (Sprite.with_dirty
             (Sprite.with_extents s
                (Sprite.x s + int (L_cos_th 0 0 0 (Sprite.width s))
                 - floordiv (Sprite.width s) 2)
                (Sprite.x s + int (L_cos_th 0 0 0 (Sprite.width s))
                 - floordiv (Sprite.width s) 2 + Sprite.width s)
                (Sprite.y s - int (L_sin_th 0 0 0 (Sprite.width s))
                 - floordiv (Sprite.width s) 2)
                (Sprite.y s - int (L_sin_th 0 0 0 (Sprite.width s))
                 - floordiv (Sprite.width s) 2 + Sprite.width s)) false).
Proof.
intros Hd Hc Ha Hr. unfold Sprite._setExtents.
rewrite Hd, Hc. unfold Sprite.fxcenter, Sprite.fycenter. rewrite Ha, Hr.
reflexivity.
Qed.

End SpriteFacts.

(** ** Sprites as the constructor leaves them *)

Section Constructed.
Import Py.
Local Open Scope R_scope.
Context {m : Machine}.

(** A sprite whose box outline is refreshed at scale one, by the fields
    of its display object. *)
Lemma box_refresh (s : Sprite) (g : Display) (w h c : R) (px py ax ay : R) :
  GFX s = g ->
  _extentsdirty s = true ->
  is_CircleAsset (asset s) = false ->
  GFX_scale g = Some (1, 1) ->
  GFX_position g = (px, py) ->
  GFX_anchor g = Some (ax, ay) ->
  _basevertices s = [(0, 0); (0, h); (w, h); (w, 0)] ->
  cos (Sprite.rotation s) = c -> sin (Sprite.rotation s) = 0 ->
  let s' := fst (Sprite._setExtents s) in
  snd (Sprite._setExtents s) = None
  /\ xmin s' = Rmin (px - GFX_width g * ax * c) (px + (w - GFX_width g * ax) * c)
  /\ xmax s' = Rmax (px - GFX_width g * ax * c) (px + (w - GFX_width g * ax) * c)
  /\ ymin s' = Rmin (py - GFX_height g * ay * c) (py + (h - GFX_height g * ay) * c)
  /\ ymax s' = Rmax (py - GFX_height g * ay * c) (py + (h - GFX_height g * ay) * c)
  /\ _extentsdirty s' = false
  /\ GFX s' = g /\ asset s' = asset s /\ edgedef s' = edgedef s
  /\ _basevertices s' = _basevertices s.
Proof.
intros HG Hd Hc Hs Hp Ha Hb Hcos Hsin s'. subst s'.
rewrite <- HG in Hs.
destruct (setExtents_box s 1 w h c Hd Hc Hs Hb Hcos Hsin)
  as (E & X0 & X1 & Y0 & Y1 & D & G & A & Ed & B).
rewrite E, X0, X1, Y0, Y1, D, G, A, Ed, B.
unfold Sprite.x, Sprite.y, Sprite.width, Sprite.height,
  Sprite.fxcenter, Sprite.fycenter.
rewrite HG, Hp, Ha. cbv [fst snd].
repeat match goal with |- _ /\ _ => split end; first [assumption | reflexivity].
Qed.

(** A rectangle sprite as the constructor leaves it. *)
Lemma rectangle_new (w h : R) (pos : point) :
  0 <= w -> 0 <= h ->
  let r := Sprite.__init__ (GFX_Sprite w h) (RectangleAsset w h) pos None in
  snd r = None
  /\ xmin (fst r) = fst pos /\ xmax (fst r) = fst pos + w
  /\ ymin (fst r) = snd pos /\ ymax (fst r) = snd pos + h
  /\ _extentsdirty (fst r) = false
  /\ GFX (fst r) = Sprite.set_GFX_position (GFX_Sprite w h) pos
  /\ asset (fst r) = RectangleAsset w h
  /\ edgedef (fst r) = RectangleAsset w h
  /\ _basevertices (fst r) = [(0, 0); (0, h); (w, h); (w, 0)].
Proof.
intros Hw Hh r. subst r. destruct pos as [px py]. unfold Sprite.__init__.
match goal with |- context [Sprite._setExtents ?s] => set (s3 := s) end.
assert (HG : GFX s3 = Sprite.set_GFX_position (GFX_Sprite w h) (px, py)).
{ subst s3. sprite_fields. reflexivity. }
assert (Hd : _extentsdirty s3 = true) by (subst s3; sprite_fields; reflexivity).
assert (Ha : asset s3 = RectangleAsset w h) by (subst s3; sprite_fields; reflexivity).
assert (He : edgedef s3 = RectangleAsset w h) by (subst s3; sprite_fields; reflexivity).
assert (Hb : _basevertices s3 = [(0, 0); (0, h); (w, h); (w, 0)])
  by (subst s3; sprite_fields; reflexivity).
clearbody s3.
assert (Hrot : Sprite.rotation s3 = - 0).
{ unfold Sprite.rotation. rewrite HG. sprite_fields. reflexivity. }
destruct (box_refresh s3 _ w h 1 px py 0 0 HG Hd) as
  (E & X0 & X1 & Y0 & Y1 & D & G & A & Ed & B).
- rewrite Ha. sprite_fields. reflexivity.
- sprite_fields. reflexivity.
- sprite_fields. reflexivity.
- sprite_fields. reflexivity.
- exact Hb.
- rewrite Hrot, Ropp_0. apply cos_0.
- rewrite Hrot, Ropp_0. apply sin_0.
- rewrite E, X0, X1, Y0, Y1, D, G, A, Ed, B, Ha, He, Hb.
  sprite_fields.
  repeat match goal with |- _ /\ _ => split end;
    try reflexivity; unfold Rmin, Rmax; repeat rcase_inner; lra.
Qed.

Lemma rectangle_fields (w h : R) (pos : point) :
  0 <= w -> 0 <= h ->
  let r := Scenario.rectangle w h pos in
  xmin r = fst pos /\ xmax r = fst pos + w
  /\ ymin r = snd pos /\ ymax r = snd pos + h
  /\ _extentsdirty r = false
  /\ GFX r = Sprite.set_GFX_position (GFX_Sprite w h) pos
  /\ asset r = RectangleAsset w h
  /\ edgedef r = RectangleAsset w h
  /\ _basevertices r = [(0, 0); (0, h); (w, h); (w, 0)].
Proof.
intros Hw Hh. unfold Scenario.rectangle.
exact (proj2 (rectangle_new w h pos Hw Hh)).
Qed.

End Constructed.

(** ** The anchor *)

Section AnchorAndRotation.
Import Py.
Local Open Scope R_scope.
Context {m : Machine}.

Lemma recentred_square (r : Sprite) :
  GFX r = Sprite.set_GFX_position (GFX_Sprite 100 100) (10, 10) ->
  asset r = RectangleAsset 100 100 ->
  _basevertices r = [(0, 0); (0, 100); (100, 100); (100, 0)] ->
  let s' := fst (Sprite._setExtents (Sprite.set_center r (0.5, 0.5))) in
  xmin s' = -40 /\ xmax s' = 60 /\ ymin s' = -40 /\ ymax s' = 60
  /\ _extentsdirty s' = false.
Proof.
intros G A B.
set (g := Sprite.set_GFX_anchor
            (Sprite.set_GFX_position (GFX_Sprite 100 100) (10, 10))
            (Some (0.5, 0.5))).
assert (Hset : Sprite.set_center r (0.5, 0.5)
               = Sprite.with_dirty (Sprite.with_GFX r g) true).
{ unfold Sprite.set_center. rewrite G. reflexivity. }
rewrite Hset.
assert (Hrot : Sprite.rotation (Sprite.with_dirty (Sprite.with_GFX r g) true) = - 0).
{ reflexivity. }
destruct (box_refresh (Sprite.with_dirty (Sprite.with_GFX r g) true)
            g 100 100 1 10 10 0.5 0.5)
  as (_ & X0' & X1' & Y0' & Y1' & D' & _).
- reflexivity.
- reflexivity.
- change (is_CircleAsset (asset r) = false). rewrite A. reflexivity.
- reflexivity.
- reflexivity.
- reflexivity.
- exact B.
- rewrite Hrot, Ropp_0. apply cos_0.
- rewrite Hrot, Ropp_0. apply sin_0.
- assert (Hw : GFX_width g = 100) by reflexivity.
  assert (Hh : GFX_height g = 100) by reflexivity.
  intros s'. subst s'.
  rewrite X0', X1', Y0', Y1', D', Hw, Hh. clear.
  splits; [ unfold Rmin, Rmax; repeat rcase_inner; lra .. | reflexivity ].
Qed.

Lemma centred_square_extents :
  xmin Scenario.centred_square = -40 /\ xmax Scenario.centred_square = 60
  /\ ymin Scenario.centred_square = -40 /\ ymax Scenario.centred_square = 60
  /\ _extentsdirty Scenario.centred_square = false.
Proof.
destruct (rectangle_fields 100 100 (10, 10))
  as (X0 & X1 & Y0 & Y1 & D & G & A & Ed & B); [lra | lra |].
exact (recentred_square _ G A B).
Qed.

(** C3 (amended): a 100 by 100 rectangle sprite at position (10,10),
    scale 1 and rotation 0, whose anchor is set to (0.5, 0.5): after the
    extents are computed again the box is xmin = -40, xmax = 60 (and
    ymin = -40, ymax = 60). The position names the anchor point, so the
    anchor shifts the box by half its size; the size of the box stays
    100. *)
Theorem anchor_centre_shifts_extents :
  xmin Scenario.centred_square = -40
  /\ xmax Scenario.centred_square = 60
  /\ ymin Scenario.centred_square = -40
  /\ ymax Scenario.centred_square = 60
  /\ _extentsdirty Scenario.centred_square = false
  /\ xmax Scenario.centred_square - xmin Scenario.centred_square = 100.
Proof.
destruct centred_square_extents as (H0 & H1 & H2 & H3 & H4).
rewrite H0, H1, H2, H3, H4. splits; try reflexivity; lra.
Qed.

End AnchorAndRotation.

(** ** Rotation *)

Section Setters.
Import Py.
Local Open Scope R_scope.
Context {m : Machine}.

Lemma truthy_PI : truthy PI = true.
Proof. apply truthy_nonzero. apply PI_neq0. Qed.

(** A box outline turned by half a turn lies above and left of the
    position. *)
Lemma half_turn_box (r : Sprite) (w h : R) (pos : point) :
  0 <= w -> 0 <= h ->
  GFX r = Sprite.set_GFX_position (GFX_Sprite w h) pos ->
  asset r = RectangleAsset w h ->
  _basevertices r = [(0, 0); (0, h); (w, h); (w, 0)] ->
  let s' := fst (Sprite._setExtents (Sprite.set_rotation r PI)) in
  xmin s' = fst pos - w /\ xmax s' = fst pos
  /\ ymin s' = snd pos - h /\ ymax s' = snd pos
  /\ _extentsdirty s' = false
  /\ GFX s' = Sprite.set_GFX_rotation
                (Sprite.set_GFX_position (GFX_Sprite w h) pos) (Some (- PI))
  /\ asset s' = RectangleAsset w h
  /\ _basevertices s' = [(0, 0); (0, h); (w, h); (w, 0)].
Proof.
intros Hw Hh G A B. destruct pos as [px py].
set (g := Sprite.set_GFX_rotation
            (Sprite.set_GFX_position (GFX_Sprite w h) (px, py)) (Some (- PI))).
assert (Hset : Sprite.set_rotation r PI
               = Sprite.with_dirty (Sprite.with_GFX r g) true).
{ unfold Sprite.set_rotation. rewrite truthy_PI, G. reflexivity. }
rewrite Hset.
assert (Hrot : Sprite.rotation (Sprite.with_dirty (Sprite.with_GFX r g) true)
               = - - PI).
{ subst g. sprite_fields. reflexivity. }
destruct (box_refresh (Sprite.with_dirty (Sprite.with_GFX r g) true)
            g w h (-1) px py 0 0)
  as (_ & X0 & X1 & Y0 & Y1 & D & G' & A' & _ & B').
- subst g. sprite_fields. reflexivity.
- sprite_fields. reflexivity.
- change (is_CircleAsset (asset r) = false). rewrite A. reflexivity.
- subst g. sprite_fields. reflexivity.
- subst g. sprite_fields. reflexivity.
- subst g. sprite_fields. reflexivity.
- exact B.
- rewrite Hrot, Ropp_involutive. apply cos_PI.
- rewrite Hrot, Ropp_involutive. apply sin_PI.
- assert (Hgw : GFX_width g = w) by (subst g; sprite_fields; reflexivity).
  assert (Hgh : GFX_height g = h) by (subst g; sprite_fields; reflexivity).
  intros s'. subst s'.
  rewrite X0, X1, Y0, Y1, D, G', A', B', Hgw, Hgh.
  change (asset (Sprite.with_dirty (Sprite.with_GFX r g) true)) with (asset r).
  change (_basevertices (Sprite.with_dirty (Sprite.with_GFX r g) true))
    with (_basevertices r).
  rewrite A, B. cbv [fst snd].
  repeat match goal with |- _ /\ _ => split end;
    first [ reflexivity | unfold Rmin, Rmax; repeat rcase_inner; lra ].
Qed.

End Setters.

Section Setters2.
Import Py.
Local Open Scope R_scope.
Context {m : Machine}.

(** Assigning zero to [rotation] writes the display object and nothing
    else. *)
Lemma set_rotation_zero (s : Sprite) :
  Sprite.set_rotation s 0 =
    Sprite.with_GFX s (Sprite.set_GFX_rotation (GFX s) (Some (- 0))).
Proof. unfold Sprite.set_rotation. rewrite truthy_0. reflexivity. Qed.

Lemma turned_fields :
  xmin Scenario.turned = -100 /\ xmax Scenario.turned = 0
  /\ ymin Scenario.turned = -50 /\ ymax Scenario.turned = 0
  /\ _extentsdirty Scenario.turned = false
  /\ GFX Scenario.turned =
       Sprite.set_GFX_rotation
         (Sprite.set_GFX_position (GFX_Sprite 100 50) (0, 0)) (Some (- PI))
  /\ asset Scenario.turned = RectangleAsset 100 50
  /\ _basevertices Scenario.turned = [(0, 0); (0, 50); (100, 50); (100, 0)].
Proof.
destruct (rectangle_fields 100 50 (0, 0))
  as (_ & _ & _ & _ & _ & G & A & _ & B); [lra | lra |].
destruct (half_turn_box _ 100 50 (0, 0) ltac:(lra) ltac:(lra) G A B)
  as (X0 & X1 & Y0 & Y1 & D & G' & A' & B').
fold Scenario.turned in X0, X1, Y0, Y1, D, G', A', B'.
cbv [fst snd] in X0, X1, Y0, Y1.
splits; try assumption; lra.
Qed.

(** Extents of a sprite with a box outline whose rotation was set back to
    zero, once they are computed again. *)
Lemma turned_back_fresh (t : Sprite) (w h : R) :
  0 <= w -> 0 <= h ->
  GFX t = Sprite.set_GFX_rotation
            (Sprite.set_GFX_position (GFX_Sprite w h) (0, 0)) (Some (- PI)) ->
  asset t = RectangleAsset w h ->
  _basevertices t = [(0, 0); (0, h); (w, h); (w, 0)] ->
  let fresh :=
    fst (Sprite._setExtents
           (Sprite.with_dirty (Sprite.set_rotation t 0) true)) in
  xmin fresh = 0 /\ xmax fresh = w /\ ymin fresh = 0 /\ ymax fresh = h.
Proof.
intros Hw Hh G A B. rewrite set_rotation_zero, G.
set (g := Sprite.set_GFX_rotation _ (Some (- 0))).
set (t' := Sprite.with_dirty (Sprite.with_GFX t g) true).
assert (Hrot : Sprite.rotation t' = - - 0).
{ subst t' g. sprite_fields. reflexivity. }
destruct (box_refresh t' g w h 1 0 0 0 0)
  as (_ & X0 & X1 & Y0 & Y1 & _).
- subst t'. sprite_fields. reflexivity.
- subst t'. sprite_fields. reflexivity.
- change (is_CircleAsset (asset t) = false). rewrite A. reflexivity.
- subst g. sprite_fields. reflexivity.
- subst g. sprite_fields. reflexivity.
- subst g. sprite_fields. reflexivity.
- exact B.
- rewrite Hrot, Ropp_involutive. apply cos_0.
- rewrite Hrot, Ropp_involutive. apply sin_0.
- assert (Hgw : GFX_width g = w) by (subst g; sprite_fields; reflexivity).
  assert (Hgh : GFX_height g = h) by (subst g; sprite_fields; reflexivity).
  intros fresh. subst fresh. rewrite X0, X1, Y0, Y1, Hgw, Hgh.
  splits; unfold Rmin, Rmax; repeat rcase_inner; lra.
Qed.

(** C4 (at [rotation = 0.0]): a 100 by 50 rectangle sprite is turned by
    half a turn and its extents are refreshed, so the flag is clear and
    the box is [-100, 0] by [-50, 0]. Assigning [rotation = 0.0] then
    leaves the flag clear: [_setExtents] does nothing and the cached box
    is still that of the turned sprite, although the rotation is zero
    again and a recomputation would give [0, 100] by [0, 50]. *)
Theorem rotation_zero_leaves_extents_stale :
  _extentsdirty Scenario.turned = false
  /\ Sprite.rotation Scenario.turned_back = 0
  /\ _extentsdirty Scenario.turned_back = false
  /\ Sprite._setExtents Scenario.turned_back = done_ Scenario.turned_back
  /\ xmin Scenario.turned_back = -100 /\ xmax Scenario.turned_back = 0
  /\ ymin Scenario.turned_back = -50 /\ ymax Scenario.turned_back = 0
  /\ (let fresh :=
        fst (Sprite._setExtents
               (Sprite.with_dirty Scenario.turned_back true)) in
      xmin fresh = 0 /\ xmax fresh = 100
      /\ ymin fresh = 0 /\ ymax fresh = 50).
Proof.
destruct turned_fields as (X0 & X1 & Y0 & Y1 & D & G & A & B).
assert (Hfresh := turned_back_fresh Scenario.turned 100 50
                    ltac:(lra) ltac:(lra) G A B).
fold Scenario.turned_back in Hfresh.
assert (Hd : _extentsdirty Scenario.turned_back = false).
{ unfold Scenario.turned_back. rewrite set_rotation_zero. exact D. }
splits.
- exact D.
- unfold Scenario.turned_back. rewrite set_rotation_zero.
  unfold Sprite.rotation.
  cbv [Sprite.with_GFX Sprite.set_GFX_rotation GFX GFX_rotation].
  rewrite Ropp_involutive. reflexivity.
- exact Hd.
- unfold Sprite._setExtents. rewrite Hd. reflexivity.
- unfold Scenario.turned_back. rewrite set_rotation_zero. exact X0.
- unfold Scenario.turned_back. rewrite set_rotation_zero. exact X1.
- unfold Scenario.turned_back. rewrite set_rotation_zero. exact Y0.
- unfold Scenario.turned_back. rewrite set_rotation_zero. exact Y1.
- exact Hfresh.
Qed.

(** C7: moving a sprite by [(dx, dy)] through its [position] setter
    shifts the cached extents by exactly [(dx, dx, dy, dy)], does not
    touch the flag and leaves scale, rotation, anchor, size, assets and
    outline as they were. *)
Theorem translation_shifts_extents (s : Sprite) (dx dy : R) :
  let s' := Sprite.set_position s (Sprite.x s + dx, Sprite.y s + dy) in
  xmin s' = xmin s + dx /\ xmax s' = xmax s + dx
  /\ ymin s' = ymin s + dy /\ ymax s' = ymax s + dy
  /\ _extentsdirty s' = _extentsdirty s
  /\ Sprite.position s' = (Sprite.x s + dx, Sprite.y s + dy)
  /\ Sprite.scale s' = Sprite.scale s
  /\ Sprite.rotation s' = Sprite.rotation s
  /\ Sprite.center s' = Sprite.center s
  /\ Sprite.width s' = Sprite.width s
  /\ Sprite.height s' = Sprite.height s
  /\ asset s' = asset s /\ edgedef s' = edgedef s
  /\ _basevertices s' = _basevertices s
  /\ _absolutevertices s' = _absolutevertices s
  /\ _index s' = _index s.
Proof.
intros s'. subst s'. sprite_fields.
splits; try reflexivity; try lra.
Qed.

End Setters2.

(** ** Collisions *)

Section Collisions.
Import Py.
Local Open Scope R_scope.
Context {m : Machine}.

Lemma le_false (a b : R) : le a b = false <-> b < a.
Proof. unfold le. destruct (Rle_dec a b); split; intros; try easy; lra. Qed.

Lemma gt_true (a b : R) : gt a b = true <-> a > b.
Proof. unfold gt. rewrite lt_true. unfold Rgt. tauto. Qed.

(** Comparing a square root with a bound is comparing the squares. *)
Lemma sqrt_le_sq (a c : R) : 0 <= a -> 0 <= c -> sqrt a <= c <-> a <= c * c.
Proof.
intros Ha Hc. assert (Hs := sqrt_sqrt a Ha). assert (Hp := sqrt_pos a).
split; intros H.
- rewrite <- Hs. apply Rmult_le_compat; assumption.
- destruct (Rle_dec (sqrt a) c) as [Hle|Hn]; [exact Hle|exfalso].
  assert (c < sqrt a) as Hlt by lra.
  assert (c * c < sqrt a * sqrt a).
  { apply Rmult_le_0_lt_compat; assumption. }
  lra.
Qed.

Lemma le_sqrt (a c : R) : 0 <= a -> 0 <= c -> le (sqrt a) c = le a (c * c).
Proof.
intros Ha Hc. destruct (le a (c * c)) eqn:E.
- apply le_true. apply sqrt_le_sq; [assumption..|]. apply le_true. exact E.
- apply le_false. apply le_false in E.
  destruct (Rle_dec (sqrt a) c) as [Hle|Hn]; [|lra].
  apply sqrt_le_sq in Hle; [lra|assumption..].
Qed.

(** The gross check as a proposition. *)
Lemma boxes_apart_true (s o : Sprite) :
  Heap.boxes_apart s o = true <->
  xmin s > xmax o \/ xmax s < xmin o \/ ymin s > ymax o \/ ymax s < ymin o.
Proof.
unfold Heap.boxes_apart. rewrite !orb_true_iff, !gt_true, !lt_true. tauto.
Qed.

(** A sprite with a circle as its asset, as the constructor leaves it:
    whatever the edge definition, the box is a square of the display
    width; its upper left corner is the position, shifted by what the
    truncation of the two products leaves. *)
Lemma circle_asset_new (w r : R) (pos : point) (e : option Asset) :
  let res := Sprite.__init__ (GFX_Sprite w w) (CircleAsset r) pos e in
  let ox := int (L_cos_th 0 0 0 w) - floordiv w 2 in
  let oy := - int (L_sin_th 0 0 0 w) - floordiv w 2 in
  snd res = None
  /\ xmin (fst res) = fst pos + ox /\ xmax (fst res) = fst pos + ox + w
  /\ ymin (fst res) = snd pos + oy /\ ymax (fst res) = snd pos + oy + w
  /\ _extentsdirty (fst res) = false
  /\ asset (fst res) = CircleAsset r
  /\ Sprite.width (fst res) = w
  /\ edgedef (fst res) =
       match e with
       | Some e' => if Nat.eqb (asset_len e') 0 then CircleAsset r else e'
       | None => CircleAsset r
       end
  /\ _basevertices (fst res) = _basevertices
       (Sprite._createBaseVertices (fst res)).
Proof.
intros res ox oy. subst res. destruct pos as [px py]. unfold Sprite.__init__.
set (edge := match e with Some _ => _ | None => _ end).
match goal with |- context [Sprite._setExtents ?s] => set (s3 := s) end.
assert (HG : GFX s3 = Sprite.set_GFX_position (GFX_Sprite w w) (px, py)).
{ subst s3. sprite_fields. reflexivity. }
assert (Hd : _extentsdirty s3 = true) by (subst s3; sprite_fields; reflexivity).
assert (Ha : asset s3 = CircleAsset r) by (subst s3; sprite_fields; reflexivity).
assert (He : edgedef s3 = edge) by (subst s3; sprite_fields; reflexivity).
assert (Hb : _basevertices s3 = _basevertices (Sprite._createBaseVertices s3)).
{ subst s3. sprite_fields. reflexivity. }
clearbody s3 edge.
assert (Hx : Sprite.x s3 = px) by (unfold Sprite.x; rewrite HG; reflexivity).
assert (Hy : Sprite.y s3 = py) by (unfold Sprite.y; rewrite HG; reflexivity).
assert (Hwd : Sprite.width s3 = w) by (unfold Sprite.width; rewrite HG; reflexivity).
rewrite (setExtents_circle s3 Hd).
- rewrite Hx, Hy, Hwd. fold ox.
  cbn [done_ fst snd Sprite.with_dirty Sprite.with_extents xmin xmax ymin ymax
       _extentsdirty asset edgedef Sprite.width GFX _basevertices
       Sprite._createBaseVertices Sprite.with_basevertices].
  splits; try first [reflexivity | assumption]; subst ox oy; lra.
- rewrite Ha. reflexivity.
- rewrite HG. reflexivity.
- unfold Sprite.rotation. rewrite HG.
  cbv [Sprite.set_GFX_position GFX_Sprite GFX_rotation]. apply Ropp_0.
Qed.

(** [Sprite(CircleAsset(r), pos)] *)
Lemma circle_fields (r : R) (pos : point) :
  let c := Scenario.circle r pos in
  let ox := int (L_cos_th 0 0 0 (2 * r)) - floordiv (2 * r) 2 in
  let oy := - int (L_sin_th 0 0 0 (2 * r)) - floordiv (2 * r) 2 in
  xmin c = fst pos + ox /\ xmax c = fst pos + ox + 2 * r
  /\ ymin c = snd pos + oy /\ ymax c = snd pos + oy + 2 * r
  /\ _extentsdirty c = false
  /\ asset c = CircleAsset r
  /\ Sprite.width c = 2 * r.
Proof.
unfold Scenario.circle.
destruct (circle_asset_new (2 * r) r pos None)
  as (_ & X0 & X1 & Y0 & Y1 & D & A & W & _).
splits; assumption.
Qed.

(** [Sprite(CircleAsset(50), pos, RectangleAsset(100, 100))] *)
Lemma boxed_circle_fields (pos : point) :
  let c := Scenario.boxed_circle pos in
  let ox := int (L_cos_th 0 0 0 100) - floordiv 100 2 in
  let oy := - int (L_sin_th 0 0 0 100) - floordiv 100 2 in
  xmin c = fst pos + ox /\ xmax c = fst pos + ox + 100
  /\ ymin c = snd pos + oy /\ ymax c = snd pos + oy + 100
  /\ _extentsdirty c = false
  /\ asset c = CircleAsset 50
  /\ Sprite.width c = 100
  /\ edgedef c = RectangleAsset 100 100.
Proof.
unfold Scenario.boxed_circle.
destruct (circle_asset_new 100 50 pos (Some (RectangleAsset 100 100)))
  as (_ & X0 & X1 & Y0 & Y1 & D & A & W & E & _).
splits; assumption.
Qed.

(** Refreshing clean extents changes nothing. *)
Lemma heap_setExtents_clean (h : gmap loc Sprite) (l : loc) (s : Sprite) :
  h !! l = Some s -> _extentsdirty s = false ->
  Heap._setExtents h l = (h, None).
Proof.
intros Hl Hd. unfold Heap._setExtents, Sprite._setExtents.
rewrite Hl, Hd. cbv [done_ fst snd]. rewrite (insert_id h l s Hl). reflexivity.
Qed.

(** [collidingWith] on two distinct sprites whose extents are clean. *)
Lemma collidingWith_clean (h : gmap loc Sprite) (a b : loc) (s o : Sprite) :
  a <> b -> h !! a = Some s -> h !! b = Some o ->
  _extentsdirty s = false -> _extentsdirty o = false ->
  Heap.collidingWith h a b =
    if Heap.boxes_apart s o then
      {| heap_after := h; narrow := []; returned := inr false |}
    else if is_CircleAsset (asset s) then
      if is_CircleAsset (asset o) then
        {| heap_after := h; narrow := [CircleWithCircle a b];
           returned :=
             inr (le (Heap.centre_distance s o)
                     (Sprite.width s / 2 + Sprite.width o / 2)) |}
      else
        {| heap_after := h; narrow := [CircleWithPoly a b];
           returned := inr (Sprite.collidingCircleWithPoly s o) |}
    else
      if is_CircleAsset (asset o) then
        {| heap_after := h; narrow := [CircleWithPoly b a];
           returned := inr (Sprite.collidingCircleWithPoly o s) |}
      else
        {| heap_after := h; narrow := [PolyWithPoly a b];
           returned := inr (Sprite.collidingPolyWithPoly s o) |}.
Proof.
intros Hab Ha Hb Hds Hdo. unfold Heap.collidingWith.
destruct (decide (a = b)) as [E|_]; [contradiction|].
rewrite (heap_setExtents_clean h a s Ha Hds).
rewrite (heap_setExtents_clean h b o Hb Hdo).
rewrite Ha, Hb. reflexivity.
Qed.

(** C9: a sprite never collides with itself, whatever its state; no
    extents are refreshed and no careful test is run. *)
Theorem collidingWith_self (h : gmap loc Sprite) (a : loc) :
  Heap.collidingWith h a a =
    {| heap_after := h; narrow := []; returned := inr false |}.
Proof.
unfold Heap.collidingWith.
destruct (decide (a = a)) as [_|N]; [reflexivity|contradiction].
Qed.

(** C6: when the refreshed boxes of two distinct sprites do not overlap,
    [collidingWith] returns [False] and runs none of the careful
    tests. *)
Theorem boxes_apart_no_narrow_test (h h1 h2 : gmap loc Sprite) (a b : loc)
    (s o : Sprite) :
  a <> b ->
  Heap._setExtents h a = (h1, None) ->
  Heap._setExtents h1 b = (h2, None) ->
  h2 !! a = Some s -> h2 !! b = Some o ->
  xmin s > xmax o \/ xmax s < xmin o \/ ymin s > ymax o \/ ymax s < ymin o ->
  returned (Heap.collidingWith h a b) = inr false
  /\ narrow (Heap.collidingWith h a b) = []
  /\ heap_after (Heap.collidingWith h a b) = h2.
Proof.
intros Hab H1 H2 Hs Ho Hbox. apply boxes_apart_true in Hbox.
unfold Heap.collidingWith.
destruct (decide (a = b)) as [E|_]; [contradiction|].
rewrite H1, H2, Hs, Ho, Hbox. splits; reflexivity.
Qed.

End Collisions.

Section Circles.
Import Py.
Local Open Scope R_scope.
Context {m : Machine}.

Lemma sq_lt_sum (c a b : R) :
  0 <= c -> c < a \/ c < - a -> c * c < a ^ 2 + b ^ 2.
Proof.
intros Hc H. assert (Hb := pow2_ge_0 b).
assert (c * c < a * a).
{ destruct H as [H|H].
  - apply Rmult_le_0_lt_compat; assumption.
  - replace (a * a) with (- a * - a) by ring.
    apply Rmult_le_0_lt_compat; assumption. }
replace (a ^ 2) with (a * a) by ring. lra.
Qed.

(** Two distinct sprites with circle assets and clean extents, each box
    the square around a circle: the verdict compares the distance of the
    two centres with the sum of the radii, and the distance test runs
    exactly when the boxes overlap. *)
Lemma circle_pair (h : gmap loc Sprite) (a b : loc) (s o : Sprite)
    (x1 y1 r1 x2 y2 r2 : R) :
  a <> b -> h !! a = Some s -> h !! b = Some o ->
  0 <= r1 -> 0 <= r2 ->
  _extentsdirty s = false -> _extentsdirty o = false ->
  is_CircleAsset (asset s) = true -> is_CircleAsset (asset o) = true ->
  Sprite.width s = 2 * r1 -> Sprite.width o = 2 * r2 ->
  xmin s = x1 -> xmax s = x1 + 2 * r1 -> ymin s = y1 -> ymax s = y1 + 2 * r1 ->
  xmin o = x2 -> xmax o = x2 + 2 * r2 -> ymin o = y2 -> ymax o = y2 + 2 * r2 ->
  Heap.collidingWith h a b =
    {| heap_after := h;
       narrow := if Heap.boxes_apart s o then [] else [CircleWithCircle a b];
       returned :=
         inr (le ((x1 + r1 - (x2 + r2)) ^ 2 + (y1 + r1 - (y2 + r2)) ^ 2)
                 ((r1 + r2) * (r1 + r2))) |}.
Proof.
intros Hab Ha Hb Hr1 Hr2 Hds Hdo Hcs Hco Hws Hwo X0 X1 Y0 Y1 X0' X1' Y0' Y1'.
rewrite (collidingWith_clean h a b s o Hab Ha Hb Hds Hdo).
rewrite Hcs, Hco.
destruct (Heap.boxes_apart s o) eqn:Hbox.
- apply boxes_apart_true in Hbox.
  rewrite X0, X1, Y0, Y1, X0', X1', Y0', Y1' in Hbox.
  f_equal. f_equal. symmetry. apply le_false.
  assert (Hc : 0 <= r1 + r2) by lra.
  destruct Hbox as [H|[H|[H|H]]].
  + apply sq_lt_sum; [exact Hc | left; lra].
  + apply sq_lt_sum; [exact Hc | right; lra].
  + rewrite (Rplus_comm (_ ^ 2)). apply sq_lt_sum; [exact Hc | left; lra].
  + rewrite (Rplus_comm (_ ^ 2)). apply sq_lt_sum; [exact Hc | right; lra].
- f_equal. f_equal. unfold Heap.centre_distance.
  rewrite X0, X1, Y0, Y1, X0', X1', Y0', Y1', Hws, Hwo.
  rewrite le_sqrt.
  + f_equal; field.
  + apply Rplus_le_le_0_compat; apply pow2_ge_0.
  + lra.
Qed.

Lemma two_centred_circles_1 (r1 r2 d : R) :
  Scenario.two_centred_circles r1 r2 d !! 1%nat
  = Some (Scenario.circle r1 (- r1, - r1)).
Proof. unfold Scenario.two_centred_circles. apply lookup_insert_eq. Qed.

Lemma two_centred_circles_2 (r1 r2 d : R) :
  Scenario.two_centred_circles r1 r2 d !! 2%nat
  = Some (Scenario.circle r2 (d - r2, - r2)).
Proof.
unfold Scenario.two_centred_circles.
rewrite lookup_insert_ne by discriminate. apply lookup_insert_eq.
Qed.

(** Two circle sprites placed one radius left of and above [(0,0)] and
    [(d,0)]: boxes and verdict, given what the truncation of the
    products leaves at the two widths. *)
Lemma centred_circles_collided (r1 r2 d ox1 oy1 ox2 oy2 : R) :
  0 <= r1 -> 0 <= r2 ->
  int (L_cos_th 0 0 0 (2 * r1)) - floordiv (2 * r1) 2 = ox1 ->
  - int (L_sin_th 0 0 0 (2 * r1)) - floordiv (2 * r1) 2 = oy1 ->
  int (L_cos_th 0 0 0 (2 * r2)) - floordiv (2 * r2) 2 = ox2 ->
  - int (L_sin_th 0 0 0 (2 * r2)) - floordiv (2 * r2) 2 = oy2 ->
  let s := Scenario.circle r1 (- r1, - r1) in
  let o := Scenario.circle r2 (d - r2, - r2) in
  (xmin s = - r1 + ox1 /\ xmax s = r1 + ox1
   /\ ymin s = - r1 + oy1 /\ ymax s = r1 + oy1)
  /\ (xmin o = d - r2 + ox2 /\ xmax o = d + r2 + ox2
      /\ ymin o = - r2 + oy2 /\ ymax o = r2 + oy2)
  /\ (Sprite.width s = 2 * r1 /\ Sprite.width o = 2 * r2)
  /\ (_extentsdirty s = false /\ _extentsdirty o = false)
  /\ Heap.collidingWith (Scenario.two_centred_circles r1 r2 d) 1%nat 2%nat
     = {| heap_after := Scenario.two_centred_circles r1 r2 d;
          narrow := if Heap.boxes_apart s o then []
                    else [CircleWithCircle 1%nat 2%nat];
          returned :=
            inr (le ((ox1 - (d + ox2)) ^ 2 + (oy1 - oy2) ^ 2)
                    ((r1 + r2) * (r1 + r2))) |}.
Proof.
intros Hr1 Hr2 Hx1 Hy1 Hx2 Hy2 s o.
destruct (circle_fields r1 (- r1, - r1))
  as (X0 & X1 & Y0 & Y1 & D & A & W).
destruct (circle_fields r2 (d - r2, - r2))
  as (X0' & X1' & Y0' & Y1' & D' & A' & W').
fold s in X0, X1, Y0, Y1, D, A, W. fold o in X0', X1', Y0', Y1', D', A', W'.
cbv [fst snd] in X0, X1, Y0, Y1, X0', X1', Y0', Y1'.
rewrite Hx1 in X0, X1. rewrite Hy1 in Y0, Y1.
rewrite Hx2 in X0', X1'. rewrite Hy2 in Y0', Y1'.
split; [splits; [rewrite X0 | rewrite X1 | rewrite Y0 | rewrite Y1]; lra|].
split; [splits; [rewrite X0' | rewrite X1' | rewrite Y0' | rewrite Y1']; lra|].
split; [split; assumption|]. split; [split; assumption|].
rewrite (circle_pair _ 1%nat 2%nat s o
           (- r1 + ox1) (- r1 + oy1) r1 (d - r2 + ox2) (- r2 + oy2) r2
           ltac:(discriminate) (two_centred_circles_1 r1 r2 d)
           (two_centred_circles_2 r1 r2 d) Hr1 Hr2 D D');
  [ | rewrite A; reflexivity | rewrite A'; reflexivity
    | exact W | exact W' | exact X0 | exact X1 | exact Y0 | exact Y1
    | exact X0' | exact X1' | exact Y0' | exact Y1' ].
f_equal. f_equal. f_equal; ring.
Qed.

(** Where the truncation leaves nothing at either width, the verdict on
    two circles centred at [(0,0)] and [(d,0)] compares [d] with the sum
    of the radii. *)
Lemma centred_circles_returned (r1 r2 d : R) :
  0 <= r1 -> 0 <= r2 -> 0 <= d ->
  int (L_cos_th 0 0 0 (2 * r1)) - floordiv (2 * r1) 2 = 0 ->
  - int (L_sin_th 0 0 0 (2 * r1)) - floordiv (2 * r1) 2 = 0 ->
  int (L_cos_th 0 0 0 (2 * r2)) - floordiv (2 * r2) 2 = 0 ->
  - int (L_sin_th 0 0 0 (2 * r2)) - floordiv (2 * r2) 2 = 0 ->
  returned
    (Heap.collidingWith (Scenario.two_centred_circles r1 r2 d) 1%nat 2%nat)
  = inr (le d (r1 + r2)).
Proof.
intros Hr1 Hr2 Hd Hx1 Hy1 Hx2 Hy2.
destruct (centred_circles_collided r1 r2 d 0 0 0 0 Hr1 Hr2 Hx1 Hy1 Hx2 Hy2)
  as (_ & _ & _ & _ & Hc).
rewrite Hc. cbn [returned]. f_equal.
destruct (le d (r1 + r2)) eqn:E.
- apply le_true. apply le_true in E. nra.
- apply le_false. apply le_false in E. nra.
Qed.

(** C5 (at radii 7 and 50, centres 57 apart): two circle sprites with
    the default anchor, built so that their circles are centred at
    [(0,0)] and [(57,0)]. On a machine whose products [L*cos(th)] and
    [L*sin(th)] truncate to 7 and -6 at width 14 and to 50 and -50 at
    width 100 (IEEE doubles: 7.000000000000001, -6.999999999999999,
    50.00000000000001 and -50.0), the box of the small circle is
    [-7, 7] by [-8, 6], one pixel above the circle, the distance of the
    box centres exceeds 57, and [collidingWith] runs the distance test
    and answers [False], although [57 <= 7 + 50]. *)
Theorem circles_touching_not_colliding :
  7 <= L_cos_th 0 0 0 14 < 8 -> -7 < L_sin_th 0 0 0 14 <= -6 ->
  50 <= L_cos_th 0 0 0 100 < 51 -> -51 < L_sin_th 0 0 0 100 <= -50 ->
  let r1 := 7 in
  let r2 := 50 in
  let d := 57 in
  let s := Scenario.circle r1 (- r1, - r1) in
  let o := Scenario.circle r2 (d - r2, - r2) in
  let c :=
    Heap.collidingWith (Scenario.two_centred_circles r1 r2 d) 1%nat 2%nat in
  d <= r1 + r2
  /\ (xmin s = -7 /\ xmax s = 7 /\ ymin s = -8 /\ ymax s = 6)
  /\ (xmin o = 7 /\ xmax o = 107 /\ ymin o = -50 /\ ymax o = 50)
  /\ (Sprite.width s / 2 = r1 /\ Sprite.width o / 2 = r2)
  /\ (_extentsdirty s = false /\ _extentsdirty o = false)
  /\ Heap.boxes_apart s o = false
  /\ narrow c = [CircleWithCircle 1%nat 2%nat]
  /\ returned c = inr false.
Proof.
intros [C14 C14'] [S14 S14'] [C100 C100'] [S100 S100'] r1 r2 d s o c.
assert (Hx1 : int (L_cos_th 0 0 0 (2 * 7)) - floordiv (2 * 7) 2 = 0).
{ replace (2 * 7) with 14 by lra.
  rewrite (int_in_unit 7 _ ltac:(lia)) by lra.
  rewrite (floordiv_2 7) by lra. lra. }
assert (Hy1 : - int (L_sin_th 0 0 0 (2 * 7)) - floordiv (2 * 7) 2 = -1).
{ replace (2 * 7) with 14 by lra.
  rewrite (int_in_unit_opp 6 _ ltac:(lia)) by lra.
  rewrite (floordiv_2 7) by lra. lra. }
assert (Hx2 : int (L_cos_th 0 0 0 (2 * 50)) - floordiv (2 * 50) 2 = 0).
{ replace (2 * 50) with 100 by lra.
  rewrite (int_in_unit 50 _ ltac:(lia)) by lra.
  rewrite (floordiv_2 50) by lra. lra. }
assert (Hy2 : - int (L_sin_th 0 0 0 (2 * 50)) - floordiv (2 * 50) 2 = 0).
{ replace (2 * 50) with 100 by lra.
  rewrite (int_in_unit_opp 50 _ ltac:(lia)) by lra.
  rewrite (floordiv_2 50) by lra. lra. }
destruct (centred_circles_collided 7 50 57 0 (-1) 0 0
            ltac:(lra) ltac:(lra) Hx1 Hy1 Hx2 Hy2)
  as ((X0 & X1 & Y0 & Y1) & (X0' & X1' & Y0' & Y1') & (W & W') & (D & D')
      & Hc).
fold r1 r2 d in X0, X1, Y0, Y1, X0', X1', Y0', Y1', W, W', D, D', Hc.
fold s in X0, X1, Y0, Y1, W, D, Hc. fold o in X0', X1', Y0', Y1', W', D', Hc.
fold c in Hc.
assert (Hbox : Heap.boxes_apart s o = false).
{ destruct (Heap.boxes_apart s o) eqn:Hb; [|reflexivity].
  apply boxes_apart_true in Hb.
  rewrite X0, X1, Y0, Y1, X0', X1', Y0', Y1' in Hb. subst r1 r2 d. lra. }
rewrite Hbox in Hc.
split; [subst r1 r2 d; lra|].
split; [splits; [rewrite X0 | rewrite X1 | rewrite Y0 | rewrite Y1];
        subst r1; lra|].
split; [splits; [rewrite X0' | rewrite X1' | rewrite Y0' | rewrite Y1'];
        subst r2 d; lra|].
split; [split; [rewrite W | rewrite W']; lra|].
split; [split; assumption|]. split; [exact Hbox|].
rewrite Hc. cbn [narrow returned]. split; [reflexivity|].
f_equal. apply le_false. subst r1 r2 d. lra.
Qed.

Lemma two_boxed_circles_1 :
  Scenario.two_boxed_circles !! 1%nat = Some (Scenario.boxed_circle (0, 0)).
Proof. unfold Scenario.two_boxed_circles. apply lookup_insert_eq. Qed.

Lemma two_boxed_circles_2 :
  Scenario.two_boxed_circles !! 2%nat = Some (Scenario.boxed_circle (90, 90)).
Proof.
unfold Scenario.two_boxed_circles.
rewrite lookup_insert_ne by discriminate. apply lookup_insert_eq.
Qed.

(** C1 (at two circle images outlined by squares): both sprites were
    built with a rectangle as edge definition, and their boxes overlap;
    [collidingWith] runs the distance test of two circles, chosen by the
    assets, and answers [False], where the pair of edge definitions asks
    for the test of two polygons. *)
Theorem narrow_test_follows_asset :
  edgedef (Scenario.boxed_circle (0, 0)) = RectangleAsset 100 100
  /\ edgedef (Scenario.boxed_circle (90, 90)) = RectangleAsset 100 100
  /\ Heap.boxes_apart (Scenario.boxed_circle (0, 0))
       (Scenario.boxed_circle (90, 90)) = false
  /\ narrow (Heap.collidingWith Scenario.two_boxed_circles 1%nat 2%nat)
     = [CircleWithCircle 1%nat 2%nat]
  /\ returned (Heap.collidingWith Scenario.two_boxed_circles 1%nat 2%nat)
     = inr false.
Proof.
destruct (boxed_circle_fields (0, 0)) as (X0 & X1 & Y0 & Y1 & D & A & W & E).
destruct (boxed_circle_fields (90, 90))
  as (X0' & X1' & Y0' & Y1' & D' & A' & W' & E').
cbv [fst snd] in X0, X1, Y0, Y1, X0', X1', Y0', Y1'.
set (ox := int (L_cos_th 0 0 0 100) - floordiv 100 2) in *.
set (oy := - int (L_sin_th 0 0 0 100) - floordiv 100 2) in *.
clearbody ox oy.
assert (Hbox : Heap.boxes_apart (Scenario.boxed_circle (0, 0))
                 (Scenario.boxed_circle (90, 90)) = false).
{ destruct (Heap.boxes_apart _ _) eqn:Hb; [|reflexivity].
  apply boxes_apart_true in Hb.
  rewrite X0, X1, Y0, Y1, X0', X1', Y0', Y1' in Hb. lra. }
rewrite (circle_pair Scenario.two_boxed_circles 1%nat 2%nat
           (Scenario.boxed_circle (0, 0)) (Scenario.boxed_circle (90, 90))
           (0 + ox) (0 + oy) 50 (90 + ox) (90 + oy) 50);
  [ | discriminate | exact two_boxed_circles_1 | exact two_boxed_circles_2
    | lra | lra | exact D | exact D'
    | rewrite A; reflexivity | rewrite A'; reflexivity
    | rewrite W; lra | rewrite W'; lra
    | rewrite X0; lra | rewrite X1; lra | rewrite Y0; lra | rewrite Y1; lra
    | rewrite X0'; lra | rewrite X1'; lra | rewrite Y0'; lra
    | rewrite Y1'; lra ].
rewrite Hbox. cbn [narrow returned].
split; [exact E|]. split; [exact E'|]. split; [reflexivity|].
split; [reflexivity|].
f_equal. apply le_false.
replace ((0 + ox + 50 - (90 + ox + 50)) ^ 2
         + (0 + oy + 50 - (90 + oy + 50)) ^ 2) with 16200 by ring.
lra.
Qed.

Lemma two_blocks_1 :
  Scenario.two_blocks !! 1%nat = Some (Scenario.block 0 10 0 10).
Proof. unfold Scenario.two_blocks. apply lookup_insert_eq. Qed.

Lemma two_blocks_2 :
  Scenario.two_blocks !! 2%nat = Some (Scenario.block 20 30 0 10).
Proof.
unfold Scenario.two_blocks.
rewrite lookup_insert_ne by discriminate. apply lookup_insert_eq.
Qed.

End Circles.

(** ** Scenarios, evaluated with the arithmetic of doubles *)

Section SpriteScenarios.
Import Py.
Local Open Scope R_scope.
#[local] Existing Instance Scenario.doubles.

Lemma doubles_at_14 :
  7 <= L_cos_th 0 0 0 14 < 8 /\ -7 < L_sin_th 0 0 0 14 <= -6.
Proof.
cbn [L_cos_th L_sin_th Scenario.doubles]. unfold Scenario.default_pose.
destruct (Req_dec_T 0 0) as [_|N]; [|contradiction].
destruct (Req_dec_T 14 14) as [_|N]; [|contradiction].
lra.
Qed.

Lemma doubles_at_100 :
  50 <= L_cos_th 0 0 0 100 < 51 /\ -51 < L_sin_th 0 0 0 100 <= -50.
Proof.
cbn [L_cos_th L_sin_th Scenario.doubles]. unfold Scenario.default_pose.
destruct (Req_dec_T 0 0) as [_|N]; [|contradiction].
destruct (Req_dec_T 100 14) as [E|_]; [exfalso; lra|].
destruct (Req_dec_T 100 100) as [_|N]; [|contradiction].
lra.
Qed.

(** C3 (as stated): the box claimed for the centred square is not the
    one the code computes. *)
Lemma anchor_centre_counterexample :
  ~ (xmin Scenario.centred_square = 10 /\ xmax Scenario.centred_square = 110).
Proof.
destruct centred_square_extents as (H0 & H1 & _). rewrite H0, H1. lra.
Qed.

Lemma boxes_apart_no_narrow_test_witness :
  returned (Heap.collidingWith Scenario.two_blocks 1%nat 2%nat) = inr false
  /\ narrow (Heap.collidingWith Scenario.two_blocks 1%nat 2%nat) = []
  /\ heap_after (Heap.collidingWith Scenario.two_blocks 1%nat 2%nat)
     = Scenario.two_blocks.
Proof.
apply (boxes_apart_no_narrow_test Scenario.two_blocks Scenario.two_blocks
         Scenario.two_blocks 1%nat 2%nat
         (Scenario.block 0 10 0 10) (Scenario.block 20 30 0 10)).
- discriminate.
- apply (heap_setExtents_clean _ _ _ two_blocks_1). reflexivity.
- apply (heap_setExtents_clean _ _ _ two_blocks_2). reflexivity.
- apply two_blocks_1.
- apply two_blocks_2.
- right. left. unfold Scenario.block. cbn [xmin xmax]. lra.
Defined.

Lemma circles_touching_not_colliding_witness :
  Heap.boxes_apart (Scenario.circle 7 (- (7), - (7)))
    (Scenario.circle 50 (57 - 50, - (50))) = false
  /\ returned
       (Heap.collidingWith (Scenario.two_centred_circles 7 50 57) 1%nat 2%nat)
     = inr false.
Proof.
destruct (circles_touching_not_colliding
            (proj1 doubles_at_14) (proj2 doubles_at_14)
            (proj1 doubles_at_100) (proj2 doubles_at_100))
  as (_ & _ & _ & _ & _ & Hb & _ & Hr).
split; [exact Hb | exact Hr].
Defined.

End SpriteScenarios.

(** ** Dispatch of keyboard events *)

Section Events.

(** No key is named like the wildcard. *)
Lemma keys_names_not_star (c : Z) (name : string) :
  KeyEvent.keys !! c = Some name -> name <> "*".
Proof.
intros H. apply elem_of_list_to_map_2 in H. revert c name H.
assert (Forall (fun p : Z * string => p.2 <> "*") KeyEvent.keys_table) as HF.
{ repeat constructor; discriminate. }
intros c name H. rewrite Forall_forall in HF. exact (HF _ H).
Qed.

Variable call : callback -> KeyEvent -> KeyEvent.

(** Once the event is consumed no further callback is invoked. *)
Lemma visit_consumed (e : KeyEvent) (l : list callback) :
  consumed e = true -> App.visit call e l = (e, []).
Proof.
intros H. induction l as [|cb l IH]; simpl; [reflexivity|].
rewrite H. exact IH.
Qed.

(** C10: a raw keyboard event whose key code is not in [KeyEvent.keys],
    with at least one callback subscribed under the wildcard of its
    event type: the dispatch raises [KeyError] while it builds the
    [KeyEvent], and no callback is invoked. *)
Theorem unmapped_key_raises (a : App) (hw : HwEvent) (cb : callback) :
  KeyEvent.keys !! keyCode hw = None ->
  cb ∈ default [] (_eventdict a !! KeyKey (hw_type hw) (Name "*")) ->
  raised (App._keyEvent call a hw) = Some Py.KeyError
  /\ invoked (App._keyEvent call a hw) = []
  /\ event_after (App._keyEvent call a hw) = None.
Proof.
intros Hk Hcb. unfold App._keyEvent, KeyEvent.__init__. rewrite Hk.
destruct (0 <? length _)%nat eqn:Hlen.
- splits; reflexivity.
- apply Nat.ltb_ge in Hlen. rewrite length_app in Hlen.
  destruct (default [] (_eventdict a !! KeyKey (hw_type hw) (Name "*")))
    as [|c l].
  + inversion Hcb.
  + rewrite length_cons in Hlen. lia.
Qed.

(** C2 (amended): one callback [S] subscribed for a specific key and one
    callback [W] for the wildcard of the same event type. A dispatch for
    that key invokes the wildcard callback first and then, unless the
    wildcard callback consumed the event, the specific callback,
    whatever the specific callback does to the event. *)
Theorem wildcard_runs_before_specific (a : App) (hw : HwEvent)
    (name : string) (S W : callback) :
  KeyEvent.keys !! keyCode hw = Some name ->
  _eventdict a !! KeyKey (hw_type hw) (Name name) = Some [S] ->
  _eventdict a !! KeyKey (hw_type hw) (Name "*") = Some [W] ->
  exists evt,
    KeyEvent.__init__ hw = inr evt
    /\ raised (App._keyEvent call a hw) = None
    /\ invoked (App._keyEvent call a hw)
       = W :: (if consumed (call W evt) then [] else [S]).
Proof.
intros Hk HS HW. unfold App._keyEvent, KeyEvent.__init__.
rewrite Hk, HS, HW. eexists. split; [reflexivity|].
simpl. destruct (consumed (call W _)); split; reflexivity.
Qed.

End Events.

Section EventScenario.

Lemma subscribed_space :
  _eventdict Scenario.subscribed !! KeyKey "keydown" (Name "space")
  = Some [Scenario.specific].
Proof. vm_compute. reflexivity. Qed.

Lemma subscribed_star :
  _eventdict Scenario.subscribed !! KeyKey "keydown" (Name "*")
  = Some [Scenario.wildcard].
Proof. vm_compute. reflexivity. Qed.

Lemma wildcard_runs_before_specific_witness :
  exists evt,
    KeyEvent.__init__ Scenario.space_down = inr evt
    /\ raised (App._keyEvent Scenario.call Scenario.subscribed
                 Scenario.space_down) = None
    /\ invoked (App._keyEvent Scenario.call Scenario.subscribed
                  Scenario.space_down)
       = Scenario.wildcard
         :: (if consumed (Scenario.call Scenario.wildcard evt) then []
             else [Scenario.specific]).
Proof.
apply (wildcard_runs_before_specific Scenario.call Scenario.subscribed
         Scenario.space_down "space" Scenario.specific Scenario.wildcard).
- vm_compute. reflexivity.
- vm_compute. reflexivity.
- vm_compute. reflexivity.
Defined.

(** C2 (as stated): the specific callback marks every event consumed,
    and still the wildcard callback is invoked, before it. *)
Lemma wildcard_invoked_counterexample :
  (forall e, consumed (Scenario.call Scenario.specific e) = true)
  /\ invoked (App._keyEvent Scenario.call Scenario.subscribed
                Scenario.space_down)
     = [Scenario.wildcard; Scenario.specific]
  /\ ~ (Scenario.wildcard
          ∉ invoked (App._keyEvent Scenario.call Scenario.subscribed
                       Scenario.space_down)).
Proof.
assert (H : invoked (App._keyEvent Scenario.call Scenario.subscribed
                       Scenario.space_down)
            = [Scenario.wildcard; Scenario.specific]).
{ vm_compute. reflexivity. }
splits.
- intros e. reflexivity.
- exact H.
- rewrite H. intros N. apply N. left.
Qed.

Lemma unmapped_key_raises_witness :
  raised (App._keyEvent Scenario.call Scenario.subscribed
            Scenario.unmapped_down) = Some Py.KeyError
  /\ invoked (App._keyEvent Scenario.call Scenario.subscribed
                Scenario.unmapped_down) = []
  /\ event_after (App._keyEvent Scenario.call Scenario.subscribed
                    Scenario.unmapped_down) = None.
Proof.
apply (unmapped_key_raises Scenario.call Scenario.subscribed
         Scenario.unmapped_down Scenario.wildcard).
- vm_compute. reflexivity.
- vm_compute. left.
Defined.

End EventScenario.

(** ** The registry *)

Section ListRemove.
Context {A : Type} `{EqDecision A}.

Lemma list_remove_None (x : A) (l : list A) :
  Py.list_remove x l = None <-> x ∉ l.
Proof.
induction l as [|y l IH]; simpl.
- split; [intros _; apply not_elem_of_nil | reflexivity].
- destruct (decide (x = y)) as [->|Hne].
  + split; [discriminate|]. intros H. exfalso. apply H. left.
  + rewrite fmap_None, IH, not_elem_of_cons. tauto.
Qed.

Lemma list_remove_Some (x : A) (l : list A) :
  x ∈ l -> exists l', Py.list_remove x l = Some l'.
Proof.
intros H. destruct (Py.list_remove x l) as [l'|] eqn:E; [eauto|].
apply list_remove_None in E. contradiction.
Qed.

Lemma list_remove_perm (x : A) (l l' : list A) :
  Py.list_remove x l = Some l' -> l ≡ₚ x :: l'.
Proof.
revert l'. induction l as [|y l IH]; intros l'; simpl; [discriminate|].
destruct (decide (x = y)) as [->|Hne].
- intros [= ->]. reflexivity.
- destruct (Py.list_remove x l) as [l0|]; simpl; [|discriminate].
  intros [= <-]. rewrite (IH l0 eq_refl). apply Permutation_swap.
Qed.

Lemma list_remove_filter (P : A -> Prop) `{forall y, Decision (P y)}
    (x : A) (l l' : list A) :
  P x -> Py.list_remove x l = Some l' ->
  Py.list_remove x (filter P l) = Some (filter P l').
Proof.
intros Hx. revert l'. induction l as [|y l IH]; intros l'; simpl; [discriminate|].
destruct (decide (x = y)) as [->|Hne].
- intros [= ->]. rewrite filter_cons_True by exact Hx. simpl.
  destruct (decide (y = y)); [reflexivity|contradiction].
- destruct (Py.list_remove x l) as [l0|]; simpl; [|discriminate].
  intros [= <-]. rewrite !filter_cons. destruct (decide (P y)).
  + simpl. destruct (decide (x = y)); [contradiction|].
    rewrite (IH l0 eq_refl). reflexivity.
  + exact (IH l0 eq_refl).
Qed.

Lemma list_remove_filter_other (P : A -> Prop) `{forall y, Decision (P y)}
    (x : A) (l l' : list A) :
  ~ P x -> Py.list_remove x l = Some l' -> filter P l' = filter P l.
Proof.
intros Hx. revert l'. induction l as [|y l IH]; intros l'; simpl; [discriminate|].
destruct (decide (x = y)) as [->|Hne].
- intros [= ->]. rewrite filter_cons_False by exact Hx. reflexivity.
- destruct (Py.list_remove x l) as [l0|]; simpl; [|discriminate].
  intros [= <-]. rewrite !filter_cons. rewrite (IH l0 eq_refl). reflexivity.
Qed.

End ListRemove.

Section RegistryFacts.
Import Py.

Variable type_of : loc -> string.


Lemma initial_consistent : App.consistent type_of App.initial.
Proof. intros c. reflexivity. Qed.

(** Registering a sprite appends it to the list and to the bucket of its
    class; the subscriptions are not touched. *)
Lemma add_fields (a : App) (obj : loc) :
  spritelist (App._add type_of a obj) = spritelist a ++ [obj]
  /\ _spritesdict (App._add type_of a obj)
     = <[type_of obj := default [] (_spritesdict a !! type_of obj) ++ [obj]]>
         (_spritesdict a)
  /\ _eventdict (App._add type_of a obj) = _eventdict a
  /\ _spritesadded (App._add type_of a obj) = _spritesadded a
  /\ _win (App._add type_of a obj) = (fun w => Window.add w obj) <$> _win a.
Proof.
unfold App._add.
destruct (_win a) as [w|] eqn:Hw; simpl;
  destruct (_spritesdict a !! type_of obj) as [b|] eqn:E; simpl;
  rewrite ?E, ?Hw, ?lookup_insert_eq, ?insert_insert_eq; simpl;
  splits; reflexivity.
Qed.

Lemma add_consistent (a : App) (obj : loc) :
  App.consistent type_of a -> App.consistent type_of (App._add type_of a obj).
Proof.
intros Hc c. destruct (add_fields a obj) as (Hl & Hd & _).
rewrite Hl, Hd, filter_app, <- Hc.
destruct (decide (type_of obj = c)) as [<-|Hne].
- rewrite lookup_insert_eq, filter_cons_True by reflexivity. reflexivity.
- rewrite lookup_insert_ne by exact Hne.
  rewrite filter_cons_False by exact Hne. rewrite filter_nil, app_nil_r.
  reflexivity.
Qed.

(** Removing a registered sprite succeeds and takes one occurrence out of
    the list and out of the bucket of its class. *)
Lemma remove_registered (a : App) (obj : loc) :
  App.consistent type_of a -> obj ∈ spritelist a ->
  exists l a',
    Py.list_remove obj (spritelist a) = Some l
    /\ App._remove type_of a obj = done_ a'
    /\ spritelist a' = l
    /\ App.consistent type_of a'
    /\ _eventdict a' = _eventdict a
    /\ _spritesadded a' = _spritesadded a
    /\ _win a' = (fun w => Window.remove w obj) <$> _win a.
Proof.
intros Hc Hin. destruct (list_remove_Some obj _ Hin) as [l Hl].
assert (Hb : obj ∈ default [] (_spritesdict a !! type_of obj)).
{ rewrite Hc. apply list_elem_of_filter. split; [reflexivity|exact Hin]. }
destruct (_spritesdict a !! type_of obj) as [bucket|] eqn:E;
  [|simpl in Hb; inversion Hb].
simpl in Hb.
assert (Hrb := list_remove_filter (fun l0 => type_of l0 = type_of obj)
                 obj _ l eq_refl Hl).
specialize (Hc (type_of obj)) as Hcb. rewrite E in Hcb. simpl in Hcb.
rewrite <- Hcb in Hrb.
exists l. unfold App._remove.
destruct (_win a) as [w|] eqn:Hw; simpl; rewrite Hl; simpl; rewrite E, Hrb;
  eexists; (split; [reflexivity|]);
  (split; [reflexivity|]); simpl;
  (split; [reflexivity|]);
  (split; [|rewrite ?Hw; splits; reflexivity]);
  intros c; simpl;
  (destruct (decide (type_of obj = c)) as [<-|Hne];
   [ rewrite lookup_insert_eq; reflexivity
   | rewrite lookup_insert_ne by exact Hne;
     rewrite (list_remove_filter_other (fun l0 => type_of l0 = c)
                obj _ l Hne Hl);
     apply Hc ]).
Qed.

(** Removing a sprite that is not registered raises [ValueError]; the
    registry is as before, but an open window has already been told to
    drop the display object. *)
Lemma remove_absent (a : App) (obj : loc) :
  obj ∉ spritelist a ->
  snd (App._remove type_of a obj) = Some ValueError
  /\ spritelist (fst (App._remove type_of a obj)) = spritelist a
  /\ _spritesdict (fst (App._remove type_of a obj)) = _spritesdict a
  /\ _win (fst (App._remove type_of a obj))
     = (fun w => Window.remove w obj) <$> _win a.
Proof.
intros Hn. apply list_remove_None in Hn. unfold App._remove.
destruct (_win a) as [w|] eqn:Hw; simpl; rewrite Hn; simpl; rewrite ?Hw;
  splits; reflexivity.
Qed.

(** The loop of [_destroy] empties a consistent registry. *)
Lemma destroy_all_succeeds (copy : list loc) :
  forall a : App,
    App.consistent type_of a -> spritelist a ≡ₚ copy -> _win a = None ->
    exists a',
      App.destroy_all type_of a copy = done_ a'
      /\ spritelist a' = [] /\ App.consistent type_of a' /\ _win a' = None.
Proof.
induction copy as [|s rest IH]; intros a Hc Hp Hw.
- exists a. apply Permutation_nil_r in Hp. splits; try assumption. reflexivity.
- assert (Hin : s ∈ spritelist a).
  { rewrite Hp. left. }
  destruct (remove_registered a s Hc Hin)
    as (l & a1 & Hl & Hr & Hs & Hc1 & _ & _ & Hw1).
  rewrite Hw in Hw1. simpl in Hw1.
  assert (Hp1 : spritelist a1 ≡ₚ rest).
  { rewrite Hs. apply list_remove_perm in Hl. rewrite Hp in Hl.
    apply Permutation_cons_inv in Hl. symmetry. exact Hl. }
  destruct (IH a1 Hc1 Hp1 Hw1) as (a' & Hd & Hs' & Hc' & Hw').
  exists a'. simpl. unfold App.destroy. rewrite Hr. simpl.
  splits; assumption.
Qed.

(** Without a window, [_destroy] takes a consistent registry back to the
    state of the class statement. *)
Lemma destroy_windowless (a : App) :
  _win a = None -> App.consistent type_of a ->
  App._destroy type_of a = done_ App.initial.
Proof.
intros Hw Hc. unfold App._destroy. rewrite Hw.
destruct (destroy_all_succeeds (spritelist (App.with_win a None))
            (App.with_win a None))
  as (a' & Hd & _ & _ & Hw').
- exact Hc.
- reflexivity.
- reflexivity.
- rewrite Hd. simpl. unfold done_, App.initial. f_equal.
  unfold App.with_spritesadded, App.with_eventdict, App.with_spritesdict,
    App.with_spritelist. simpl. rewrite Hw'. reflexivity.
Qed.

(** With a window open, [_destroy] raises at its first statement and
    clears nothing. *)
Lemma destroy_with_window (a : App) (w : GFX_Window) :
  _win a = Some w -> App._destroy type_of a = raise a AttributeError.
Proof. intros Hw. unfold App._destroy. rewrite Hw. reflexivity. Qed.

End RegistryFacts.

Section RegistryScenario.
Import Py.

(** C8 (with a window open): one sprite is registered, one callback is
    subscribed and the application window is open. [_destroy] raises
    [AttributeError], the window having no method [unbind]; the sprite
    list, the bucket of the class and the subscription are left as they
    were. *)
Theorem destroy_raises_with_window_open :
  (exists w, _win Scenario.running = Some w)
  /\ App._destroy Scenario.plain Scenario.running
     = (Scenario.running, Some AttributeError)
  /\ spritelist Scenario.running = [1%nat]
  /\ _spritesdict Scenario.running !! "Sprite" = Some [1%nat]
  /\ _eventdict Scenario.running !! KeyKey "keydown" (Name "space")
     = Some [Scenario.specific].
Proof.
assert (Hw : exists w, _win Scenario.running = Some w).
{ eexists. reflexivity. }
splits.
- exact Hw.
- destruct Hw as [w Hw].
  exact (destroy_with_window Scenario.plain Scenario.running w Hw).
- reflexivity.
- reflexivity.
- reflexivity.
Qed.

End RegistryScenario.

(** ** Subscriptions *)

Section Subscriptions.
Import Py.

Lemma list_remove_last {A} `{EqDecision A} (x : A) (l : list A) :
  x ∉ l -> list_remove x (l ++ [x]) = Some l.
Proof.
induction l as [|y l IH]; intros Hn; simpl.
- destruct (decide (x = x)); [reflexivity|contradiction].
- apply not_elem_of_cons in Hn as [Hne Hn].
  destruct (decide (x = y)); [contradiction|].
  rewrite (IH Hn). reflexivity.
Qed.

Lemma listen_lookup (a : App) (k : evkey) (cb : callback) :
  _eventdict (App.listen a k cb) !! k
  = Some (if decide (cb ∈ default [] (_eventdict a !! k))
          then default [] (_eventdict a !! k)
          else default [] (_eventdict a !! k) ++ [cb]).
Proof. unfold App.listen. simpl. apply lookup_insert_eq. Qed.

(** Subscribing twice is subscribing once. *)
Theorem listen_idempotent (a : App) (k : evkey) (cb : callback) :
  App.listen (App.listen a k cb) k cb = App.listen a k cb.
Proof.
assert (Hin : cb ∈ (if decide (cb ∈ default [] (_eventdict a !! k))
                    then default [] (_eventdict a !! k)
                    else default [] (_eventdict a !! k) ++ [cb])).
{ destruct (decide (cb ∈ _)) as [H|H]; [exact H|].
  apply elem_of_app. right. left. }
unfold App.listen at 1. rewrite listen_lookup. cbn [default].
rewrite (decide_True _ _ Hin).
unfold App.listen, App.with_eventdict.
cbn [_eventdict spritelist _spritesdict _spritesadded _win].
f_equal. apply insert_insert_eq.
Qed.

(** A subscription never lists a callback twice under one key, and the
    lists of the other keys are not touched. *)
Theorem listen_no_duplicates (a : App) (k : evkey) (cb : callback) :
  NoDup (default [] (_eventdict a !! k)) ->
  NoDup (default [] (_eventdict (App.listen a k cb) !! k))
  /\ cb ∈ default [] (_eventdict (App.listen a k cb) !! k)
  /\ (forall k', k' <> k ->
        _eventdict (App.listen a k cb) !! k' = _eventdict a !! k').
Proof.
intros Hnd. rewrite listen_lookup. simpl.
set (l := default [] (_eventdict a !! k)) in *.
split; [|split].
- destruct (decide (cb ∈ l)) as [H|H]; [exact Hnd|].
  apply NoDup_app. split; [exact Hnd|]. split.
  + intros x Hx Hx'. apply list_elem_of_singleton in Hx'. subst x.
    contradiction.
  + apply NoDup_singleton.
- destruct (decide (cb ∈ l)) as [H|H]; [exact H|].
  apply elem_of_app. right. left.
- intros k' Hk. unfold App.listen. simpl.
  apply lookup_insert_ne. congruence.
Qed.

Lemma listen_no_duplicates_witness :
  NoDup (default []
           (_eventdict (App.listen App.initial (MouseKey "click") 7%nat)
              !! MouseKey "click"))
  /\ 7%nat ∈ default []
       (_eventdict (App.listen App.initial (MouseKey "click") 7%nat)
          !! MouseKey "click")
  /\ (forall k', k' <> MouseKey "click" ->
        _eventdict (App.listen App.initial (MouseKey "click") 7%nat) !! k'
        = _eventdict App.initial !! k').
Proof.
apply (listen_no_duplicates App.initial (MouseKey "click") 7%nat).
vm_compute. constructor.
Defined.

(** Unsubscribing a callback that was just subscribed gives back the
    list of before; the key stays in the table. *)
Theorem unlisten_after_listen (a : App) (k : evkey) (cb : callback) :
  cb ∉ default [] (_eventdict a !! k) ->
  App.unlisten (App.listen a k cb) k cb
  = done_ (App.with_eventdict a
             (<[k := default [] (_eventdict a !! k)]> (_eventdict a))).
Proof.
intros Hn. unfold App.unlisten. rewrite listen_lookup.
destruct (decide (cb ∈ _)) as [H|_]; [contradiction|].
rewrite (list_remove_last cb _ Hn).
unfold App.listen, App.with_eventdict, done_. simpl.
do 2 f_equal. apply insert_insert_eq.
Qed.

Lemma unlisten_after_listen_witness :
  App.unlisten (App.listen App.initial (MouseKey "click") 7%nat)
    (MouseKey "click") 7%nat
  = done_ (App.with_eventdict App.initial
             (<[MouseKey "click" := default []
                  (_eventdict App.initial !! MouseKey "click")]>
                (_eventdict App.initial))).
Proof.
apply (unlisten_after_listen App.initial (MouseKey "click") 7%nat).
vm_compute. apply not_elem_of_nil.
Defined.

(** Unsubscribing fails loudly and changes nothing: [KeyError] for a key
    nothing was ever subscribed under, [ValueError] for a callback that
    is not in the list of the key. *)
Theorem unlisten_absent (a : App) (k : evkey) (cb : callback) :
  cb ∉ default [] (_eventdict a !! k) ->
  App.unlisten a k cb
  = raise a (match _eventdict a !! k with
             | None => KeyError
             | Some _ => ValueError
             end).
Proof.
intros Hn. unfold App.unlisten.
destruct (_eventdict a !! k) as [l|]; [|reflexivity].
simpl in Hn. destruct (list_remove cb l) as [l'|] eqn:E; [|reflexivity].
exfalso. apply Hn. clear Hn. revert l' E.
induction l as [|y l IH]; intros l'; simpl; [discriminate|].
destruct (decide (cb = y)) as [->|Hne]; [intros _; left|].
destruct (list_remove cb l) as [l0|]; simpl; [|discriminate].
intros _. right. exact (IH l0 eq_refl).
Qed.

Lemma unlisten_absent_witness :
  App.unlisten Scenario.subscribed (KeyKey "keydown" (Name "space"))
    Scenario.wildcard
  = raise Scenario.subscribed
      (match _eventdict Scenario.subscribed
               !! KeyKey "keydown" (Name "space") with
       | None => KeyError
       | Some _ => ValueError
       end).
Proof.
apply (unlisten_absent Scenario.subscribed
         (KeyKey "keydown" (Name "space")) Scenario.wildcard).
vm_compute. intros H. inversion H as [|? ? ? H']. inversion H'.
Defined.

End Subscriptions.

(** ** Routing *)

Section RoutingFacts.

Variable call : callback -> KeyEvent -> KeyEvent.

Lemma visit_unconsumed (l : list callback) :
  (forall cb e, consumed e = false -> consumed (call cb e) = false) ->
  forall e, consumed e = false -> snd (App.visit call e l) = l.
Proof.
intros Hc. induction l as [|cb l IH]; intros e He; simpl; [reflexivity|].
rewrite He. simpl. rewrite (IH _ (Hc cb e He)). reflexivity.
Qed.

(** When no callback consumes the event, every subscriber is invoked,
    the one subscribed last first. *)
Theorem routeEvent_reverse_order (evt : KeyEvent) (evtlist : list callback) :
  (forall cb e, consumed e = false -> consumed (call cb e) = false) ->
  consumed evt = false ->
  snd (App._routeEvent call evt evtlist) = rev evtlist.
Proof.
intros Hc He. unfold App._routeEvent. apply visit_unconsumed; assumption.
Qed.

(** When the callback subscribed last consumes the event, it is the only
    one invoked. *)
Theorem routeEvent_stops_at_consumption (evt : KeyEvent)
    (earlier : list callback) (cb : callback) :
  consumed evt = false -> consumed (call cb evt) = true ->
  App._routeEvent call evt (earlier ++ [cb]) = (call cb evt, [cb]).
Proof.
intros He Hc. unfold App._routeEvent. rewrite rev_app_distr. simpl.
rewrite He. rewrite (visit_consumed call _ _ Hc). reflexivity.
Qed.

(** The invoked callbacks are always taken, in order, from the reversed
    snapshot. *)
Theorem routeEvent_invokes_subscribers (evtlist : list callback) :
  forall evt, sublist (snd (App._routeEvent call evt evtlist)) (rev evtlist).
Proof.
unfold App._routeEvent. induction (rev evtlist) as [|cb l IH]; intros evt.
- constructor.
- simpl. destruct (consumed evt).
  + apply sublist_cons. apply IH.
  + simpl. apply sublist_skip. apply IH.
Qed.

(** A dispatch extends the list stored under the key of the event by the
    wildcard subscribers: the snapshot is that very list. *)
Theorem keyEvent_extends_stored_list (a : App) (hw : HwEvent)
    (name : string) (l : list callback) :
  KeyEvent.keys !! keyCode hw = Some name ->
  _eventdict a !! KeyKey (hw_type hw) (Name name) = Some l ->
  _eventdict (app_after (App._keyEvent call a hw))
    !! KeyKey (hw_type hw) (Name name)
  = Some (l ++ default [] (_eventdict a !! KeyKey (hw_type hw) (Name "*")))
  /\ (forall k, k <> KeyKey (hw_type hw) (Name name) ->
        _eventdict (app_after (App._keyEvent call a hw)) !! k
        = _eventdict a !! k).
Proof.
intros Hk Hl. unfold App._keyEvent. rewrite Hk, Hl.
unfold KeyEvent.__init__. rewrite Hk. simpl.
destruct (0 <? length _)%nat; simpl.
- split; [apply lookup_insert_eq|].
  intros k Hne. apply lookup_insert_ne. congruence.
- split; [apply lookup_insert_eq|].
  intros k Hne. apply lookup_insert_ne. congruence.
Qed.

(** With no subscriber for the key and none for the wildcard nothing
    happens at all, also for a key code that has no name. *)
Theorem keyEvent_without_subscribers (a : App) (hw : HwEvent) :
  _eventdict a !! KeyKey (hw_type hw)
                    (match KeyEvent.keys !! keyCode hw with
                     | Some name => Name name
                     | None => Num 0
                     end) = None ->
  _eventdict a !! KeyKey (hw_type hw) (Name "*") = None ->
  App._keyEvent call a hw
  = {| app_after := a; invoked := []; event_after := None; raised := None |}.
Proof.
intros H1 H2. unfold App._keyEvent. rewrite H1, H2. reflexivity.
Qed.

End RoutingFacts.

Section RoutingScenario.

Lemma routeEvent_reverse_order_witness :
  snd (App._routeEvent Scenario.silent Scenario.space_event [1%nat; 2%nat; 3%nat])
  = rev [1%nat; 2%nat; 3%nat].
Proof.
apply (routeEvent_reverse_order Scenario.silent Scenario.space_event).
- intros cb e He. exact He.
- reflexivity.
Defined.

Lemma routeEvent_stops_at_consumption_witness :
  App._routeEvent Scenario.call Scenario.space_event
    ([Scenario.wildcard] ++ [Scenario.specific])
  = (Scenario.call Scenario.specific Scenario.space_event, [Scenario.specific]).
Proof.
apply (routeEvent_stops_at_consumption Scenario.call Scenario.space_event
         [Scenario.wildcard] Scenario.specific).
- reflexivity.
- reflexivity.
Defined.

Lemma keyEvent_extends_stored_list_witness :
  _eventdict (app_after (App._keyEvent Scenario.call Scenario.subscribed
                           Scenario.space_down))
    !! KeyKey (hw_type Scenario.space_down) (Name "space")
  = Some ([Scenario.specific]
          ++ default []
               (_eventdict Scenario.subscribed
                  !! KeyKey (hw_type Scenario.space_down) (Name "*")))
  /\ (forall k, k <> KeyKey (hw_type Scenario.space_down) (Name "space") ->
        _eventdict (app_after (App._keyEvent Scenario.call Scenario.subscribed
                                 Scenario.space_down)) !! k
        = _eventdict Scenario.subscribed !! k).
Proof.
apply (keyEvent_extends_stored_list Scenario.call Scenario.subscribed
         Scenario.space_down "space" [Scenario.specific]).
- vm_compute. reflexivity.
- vm_compute. reflexivity.
Defined.

Lemma keyEvent_without_subscribers_witness :
  App._keyEvent Scenario.call App.initial Scenario.unmapped_down
  = {| app_after := App.initial; invoked := []; event_after := None;
       raised := None |}.
Proof.
apply (keyEvent_without_subscribers Scenario.call App.initial
         Scenario.unmapped_down).
- vm_compute. reflexivity.
- vm_compute. reflexivity.
Defined.

End RoutingScenario.

(** ** The registry kept by [_add] and [_remove] *)

Section RegistryKept.
Import Py.

Variable type_of : loc -> string.

(** Registering a sprite keeps the registry consistent: the sprite is
    the last of the list and the last of the sprites of its class; the
    other classes and the subscriptions are as before. *)
Theorem add_registers (a : App) (obj : loc) :
  App.consistent type_of a ->
  App.consistent type_of (App._add type_of a obj)
  /\ spritelist (App._add type_of a obj) = spritelist a ++ [obj]
  /\ App.getSpritesbyClass (App._add type_of a obj) (type_of obj)
     = App.getSpritesbyClass a (type_of obj) ++ [obj]
  /\ (forall c, c <> type_of obj ->
        App.getSpritesbyClass (App._add type_of a obj) c
        = App.getSpritesbyClass a c)
  /\ _eventdict (App._add type_of a obj) = _eventdict a.
Proof.
intros Hc. destruct (add_fields type_of a obj) as (Hl & Hd & He & _).
split; [exact (add_consistent type_of a obj Hc)|].
split; [exact Hl|]. unfold App.getSpritesbyClass. rewrite Hd.
split; [|split].
- rewrite lookup_insert_eq. reflexivity.
- intros c Hne. rewrite lookup_insert_ne by congruence. reflexivity.
- exact He.
Qed.

(** Removing a registered sprite succeeds, keeps the registry consistent
    and takes exactly one occurrence of the sprite out of the list. *)
Theorem remove_unregisters (a : App) (obj : loc) :
  App.consistent type_of a -> obj ∈ spritelist a ->
  exists a',
    App._remove type_of a obj = done_ a'
    /\ App.consistent type_of a'
    /\ spritelist a ≡ₚ obj :: spritelist a'
    /\ sublist (spritelist a') (spritelist a)
    /\ _eventdict a' = _eventdict a.
Proof.
intros Hc Hin.
destruct (remove_registered type_of a obj Hc Hin)
  as (l & a' & Hl & Hr & Hs & Hc' & He & _).
exists a'. split; [exact Hr|]. split; [exact Hc'|]. rewrite Hs.
split; [exact (list_remove_perm obj _ l Hl)|]. split; [|exact He].
clear - Hl. revert l Hl.
induction (spritelist a) as [|y l0 IH]; intros l; simpl; [discriminate|].
destruct (decide (obj = y)) as [->|Hne].
- intros [= ->]. apply sublist_cons. reflexivity.
- destruct (list_remove obj l0) as [l1|]; simpl; [|discriminate].
  intros [= <-]. apply sublist_skip. exact (IH l1 eq_refl).
Qed.

(** A sprite registered in a consistent registry and removed
    again leaves the list and the sprites of every class as they
    were. *)
Theorem remove_after_add (a : App) (obj : loc) :
  App.consistent type_of a -> obj ∉ spritelist a ->
  exists a',
    App._remove type_of (App._add type_of a obj) obj = done_ a'
    /\ spritelist a' = spritelist a
    /\ (forall c, App.getSpritesbyClass a' c = App.getSpritesbyClass a c).
Proof.
intros Hc Hn.
assert (Hc1 := add_consistent type_of a obj Hc).
destruct (add_fields type_of a obj) as (Hl & _).
assert (Hin : obj ∈ spritelist (App._add type_of a obj)).
{ rewrite Hl. apply elem_of_app. right. left. }
destruct (remove_registered type_of _ obj Hc1 Hin)
  as (l & a' & Hrl & Hr & Hs & Hc' & _).
rewrite Hl, (list_remove_last obj _ Hn) in Hrl. injection Hrl as <-.
exists a'. split; [exact Hr|]. split; [exact Hs|].
intros c. unfold App.getSpritesbyClass. rewrite Hc', Hc, Hs. reflexivity.
Qed.

(** [App()] on a windowless class opens the window and, the first time,
    puts the display objects of the sprites registered so far on its
    stage, in the order of their registration. *)
Theorem init_stages_registered_sprites (canvas : point) (a : App) :
  _win a = None -> _spritesadded a = false ->
  exists w,
    _win (App.__init__ canvas a []) = Some w
    /\ _stage w = spritelist a
    /\ spritelist (App.__init__ canvas a []) = spritelist a
    /\ _spritesdict (App.__init__ canvas a []) = _spritesdict a
    /\ _eventdict (App.__init__ canvas a []) = _eventdict a.
Proof.
intros Hw Hs. unfold App.__init__. rewrite Hw. simpl. rewrite Hs. simpl.
assert (Hfold : forall l w0,
          _stage (fold_left Window.add l w0) = _stage w0 ++ l).
{ induction l as [|x l IH]; intros w0; simpl.
  - rewrite app_nil_r. reflexivity.
  - rewrite IH. simpl. rewrite <- app_assoc. reflexivity. }
destruct (spritelist a) as [|x l] eqn:El; simpl.
- eexists. rewrite El. repeat split; reflexivity.
- eexists. rewrite El. split; [reflexivity|]. split.
  + rewrite Hfold. reflexivity.
  + repeat split; reflexivity.
Qed.

(** [App()] with a window already open, or with a number of arguments
    other than zero or two, does nothing. *)
Theorem init_does_nothing (canvas : point) (a : App) (args : list R) :
  _win a <> None \/ (length args <> 0%nat /\ length args <> 2%nat) ->
  App.__init__ canvas a args = a.
Proof.
intros H. unfold App.__init__.
destruct (_win a) as [w|]; [destruct args as [|? [|? [|? ?]]]; reflexivity|].
destruct H as [H|[H0 H2]]; [contradiction|].
destruct args as [|? [|? [|? ?]]]; simpl in *; try reflexivity; contradiction.
Qed.

End RegistryKept.

Section RegistryKeptScenario.
Import Py.

Lemma add_registers_witness :
  App.consistent Scenario.plain (App._add Scenario.plain App.initial 1%nat)
  /\ spritelist (App._add Scenario.plain App.initial 1%nat)
     = spritelist App.initial ++ [1%nat]
  /\ App.getSpritesbyClass (App._add Scenario.plain App.initial 1%nat)
       (Scenario.plain 1%nat)
     = App.getSpritesbyClass App.initial (Scenario.plain 1%nat) ++ [1%nat]
  /\ (forall c, c <> Scenario.plain 1%nat ->
        App.getSpritesbyClass (App._add Scenario.plain App.initial 1%nat) c
        = App.getSpritesbyClass App.initial c)
  /\ _eventdict (App._add Scenario.plain App.initial 1%nat)
     = _eventdict App.initial.
Proof.
apply (add_registers Scenario.plain App.initial 1%nat).
intros c. reflexivity.
Defined.

Lemma remove_unregisters_witness :
  exists a',
    App._remove Scenario.plain
      (App._add Scenario.plain App.initial 1%nat) 1%nat = done_ a'
    /\ App.consistent Scenario.plain a'
    /\ spritelist (App._add Scenario.plain App.initial 1%nat)
       ≡ₚ 1%nat :: spritelist a'
    /\ sublist (spritelist a')
         (spritelist (App._add Scenario.plain App.initial 1%nat))
    /\ _eventdict a'
       = _eventdict (App._add Scenario.plain App.initial 1%nat).
Proof.
apply (remove_unregisters Scenario.plain
         (App._add Scenario.plain App.initial 1%nat) 1%nat).
- apply add_consistent. intros c. reflexivity.
- vm_compute. left.
Defined.

Lemma remove_after_add_witness :
  exists a',
    App._remove Scenario.plain
      (App._add Scenario.plain App.initial 1%nat) 1%nat = done_ a'
    /\ spritelist a' = spritelist App.initial
    /\ (forall c,
          App.getSpritesbyClass a' c = App.getSpritesbyClass App.initial c).
Proof.
apply (remove_after_add Scenario.plain App.initial 1%nat).
- intros c. reflexivity.
- vm_compute. apply not_elem_of_nil.
Defined.

Lemma remove_absent_witness :
  snd (App._remove Scenario.plain App.initial 1%nat) = Some ValueError
  /\ spritelist (fst (App._remove Scenario.plain App.initial 1%nat))
     = spritelist App.initial
  /\ _spritesdict (fst (App._remove Scenario.plain App.initial 1%nat))
     = _spritesdict App.initial
  /\ _win (fst (App._remove Scenario.plain App.initial 1%nat))
     = (fun w => Window.remove w 1%nat) <$> _win App.initial.
Proof.
apply (remove_absent Scenario.plain App.initial 1%nat).
vm_compute. apply not_elem_of_nil.
Defined.

Lemma destroy_windowless_witness :
  App._destroy Scenario.plain
    (App.listenKeyEvent (App._add Scenario.plain App.initial 1%nat)
       "keydown" (Name "space") Scenario.specific)
  = done_ App.initial.
Proof.
apply (destroy_windowless Scenario.plain).
- reflexivity.
- apply (add_consistent Scenario.plain App.initial 1%nat).
  intros c. reflexivity.
Defined.

Lemma init_stages_registered_sprites_witness :
  exists w,
    _win (App.__init__ (800, 600)%R
            (App._add Scenario.plain App.initial 1%nat) []) = Some w
    /\ _stage w = spritelist (App._add Scenario.plain App.initial 1%nat)
    /\ spritelist (App.__init__ (800, 600)%R
                     (App._add Scenario.plain App.initial 1%nat) [])
       = spritelist (App._add Scenario.plain App.initial 1%nat)
    /\ _spritesdict (App.__init__ (800, 600)%R
                       (App._add Scenario.plain App.initial 1%nat) [])
       = _spritesdict (App._add Scenario.plain App.initial 1%nat)
    /\ _eventdict (App.__init__ (800, 600)%R
                     (App._add Scenario.plain App.initial 1%nat) [])
       = _eventdict (App._add Scenario.plain App.initial 1%nat).
Proof.
apply (init_stages_registered_sprites (800, 600)%R
         (App._add Scenario.plain App.initial 1%nat)).
- reflexivity.
- reflexivity.
Defined.

Lemma init_does_nothing_witness :
  App.__init__ (800, 600)%R Scenario.running [] = Scenario.running.
Proof.
apply (init_does_nothing (800, 600)%R Scenario.running []).
left. discriminate.
Defined.

End RegistryKeptScenario.

(** ** Iterating over an asset *)

Section AssetFacts.
Import Py.
Context {A : Type}.

Lemma drop_nth_error (l : list A) :
  forall n,
    drop n l = match nth_error l n with
               | Some g => g :: drop (S n) l
               | None => []
               end.
Proof.
induction l as [|x l IH]; intros [|n]; simpl; try reflexivity.
apply IH.
Qed.

Lemma drain_from (GFXlist : list A) :
  forall fuel i,
    (i < length GFXlist)%nat -> (length GFXlist - i <= fuel)%nat ->
    AssetList.drain GFXlist i fuel = (drop (S i) GFXlist, Some IndexError).
Proof.
induction fuel as [|fuel IH]; intros i Hi Hf; [lia|].
simpl. unfold AssetList.next_.
destruct (Nat.eqb_spec i (length GFXlist)) as [E|_]; [lia|].
rewrite (drop_nth_error GFXlist (S i)).
destruct (nth_error GFXlist (S i)) as [g|] eqn:E; [|reflexivity].
assert (S i < length GFXlist)%nat.
{ apply nth_error_Some. rewrite E. discriminate. }
rewrite IH by lia. reflexivity.
Qed.

(** Iterating over an asset never produces its first texture, and on an
    asset that holds any texture it ends in [IndexError]: the counter is
    advanced before the list is read. *)
Theorem iterate_skips_first (GFXlist : list A) :
  AssetList.iterate GFXlist
  = match GFXlist with
    | [] => ([], None)
    | _ :: rest => (rest, Some IndexError)
    end.
Proof.
unfold AssetList.iterate. destruct GFXlist as [|x rest]; [reflexivity|].
rewrite drain_from; simpl; [reflexivity|lia|lia].
Qed.

End AssetFacts.

(** ** The images of a sprite *)

Section ImageFacts.
Import Py.
Local Open Scope Z_scope.

Lemma getitem_in_range (n : nat) (i : Z) :
  0 <= i < Z.of_nat n -> AssetList.getitem n i = Some (Z.to_nat i).
Proof.
intros H. unfold AssetList.getitem.
destruct (Z.leb_spec 0 i); [|lia]. destruct (Z.ltb_spec i (Z.of_nat n)); [|lia].
reflexivity.
Qed.

(** From an index in range, [nextImage] and [prevImage] never raise and
    stay in range: without [wrap] they stop at the last and at the first
    image, with [wrap] they go round. *)
Theorem image_steps_stay_in_range (s : Sprite) (wrap : bool) :
  0 <= _index s < Z.of_nat (asset_len (asset s)) ->
  let n := Z.of_nat (asset_len (asset s)) in
  let next := Images.nextImage s wrap in
  let prev := Images.prevImage s wrap in
  shown_raised next = None /\ shown_raised prev = None
  /\ _index (shown_sprite next)
     = (if wrap then (_index s + 1) mod n else Z.min (_index s + 1) (n - 1))
  /\ _index (shown_sprite prev)
     = (if wrap then (_index s - 1) mod n else Z.max (_index s - 1) 0)
  /\ shown_texture next = Some (Z.to_nat (_index (shown_sprite next)))
  /\ shown_texture prev = Some (Z.to_nat (_index (shown_sprite prev))).
Proof.
intros Hi n next prev. subst next prev.
unfold Images.nextImage, Images.prevImage, Images.show. fold n.
cbn [asset Images.with_index].
assert (Hn : exists i, AssetList.getitem (asset_len (asset s))
               (if n <=? _index s + 1
                then if wrap then 0 else n - 1 else _index s + 1) = Some (Z.to_nat i)
             /\ i = (if n <=? _index s + 1
                     then if wrap then 0 else n - 1 else _index s + 1)
             /\ i = (if wrap then (_index s + 1) mod n
                     else Z.min (_index s + 1) (n - 1))).
{ eexists. split; [apply getitem_in_range|split; [reflexivity|]].
  - fold n. destruct (Z.leb_spec n (_index s + 1)); destruct wrap; lia.
  - destruct (Z.leb_spec n (_index s + 1)); destruct wrap; try lia.
    + assert (_index s + 1 = n) as -> by lia. rewrite Z_mod_same_full. reflexivity.
    + rewrite Z.mod_small by lia. reflexivity. }
assert (Hp : exists i, AssetList.getitem (asset_len (asset s))
               (if _index s - 1 <? 0
                then if wrap then n - 1 else 0 else _index s - 1) = Some (Z.to_nat i)
             /\ i = (if _index s - 1 <? 0
                     then if wrap then n - 1 else 0 else _index s - 1)
             /\ i = (if wrap then (_index s - 1) mod n
                     else Z.max (_index s - 1) 0)).
{ eexists. split; [apply getitem_in_range|split; [reflexivity|]].
  - fold n. destruct (Z.ltb_spec (_index s - 1) 0); destruct wrap; lia.
  - destruct (Z.ltb_spec (_index s - 1) 0); destruct wrap; try lia.
    + assert (_index s = 0) as -> by lia.
      replace (0 - 1) with (- 1 * n + (n - 1)) by lia.
      rewrite Z.add_comm, Z_mod_plus_full, Z.mod_small by lia. reflexivity.
    + rewrite Z.mod_small by lia. reflexivity. }
destruct Hn as (i & Hg & Hi1 & Hi2). destruct Hp as (j & Hg' & Hj1 & Hj2).
rewrite Hg, Hg'. cbn [shown_raised shown_sprite shown_texture _index].
rewrite <- Hi1, <- Hj1, <- Hi2, <- Hj2.
repeat split; reflexivity.
Qed.


(** Assigning [index]: an index the asset has (counted from the front,
    or from the back when negative) is kept; any other falls back to
    zero, and only a sprite whose asset holds no texture at all sees the
    [IndexError]. *)
Theorem set_index_falls_back (s : Sprite) (value : Z) :
  let n := Z.of_nat (asset_len (asset s)) in
  let r := Images.set_index s value in
  (- n <= value < n ->
   _index (shown_sprite r) = value /\ shown_raised r = None
   /\ shown_texture r
      = Some (Z.to_nat (if value <? 0 then n + value else value)))
  /\ (~ (- n <= value < n) -> 0 < n ->
      _index (shown_sprite r) = 0 /\ shown_raised r = None
      /\ shown_texture r = Some 0%nat)
  /\ (n = 0 -> _index (shown_sprite r) = 0
               /\ shown_raised r = Some IndexError).
Proof.
intros n r. subst r.
assert (Hn : 0 <= n) by (subst n; lia).
unfold Images.set_index, Images.show, AssetList.getitem.
cbn [asset Images.with_index]. fold n.
assert (H00 : (0 <=? 0) = true) by reflexivity. rewrite H00.
split; [|split].
- intros Hr.
  destruct (Z.leb_spec 0 value), (Z.ltb_spec value n),
    (Z.leb_spec (- n) value), (Z.ltb_spec value 0);
    cbn [andb shown_sprite shown_raised shown_texture Images.with_index _index];
    try lia; repeat split; reflexivity.
- intros Hr Hpos.
  destruct (Z.ltb_spec 0 n); [|lia].
  destruct (Z.leb_spec 0 value), (Z.ltb_spec value n),
    (Z.leb_spec (- n) value), (Z.ltb_spec value 0);
    cbn [andb shown_sprite shown_raised shown_texture Images.with_index _index];
    try lia; repeat split; reflexivity.
- intros H0. rewrite H0.
  assert (H1 : (0 <? 0) = false) by reflexivity.
  assert (H2 : (- 0 <=? 0) = true) by reflexivity. rewrite H1.
  destruct (Z.leb_spec 0 value), (Z.ltb_spec value 0),
    (Z.leb_spec (- 0) value);
    cbn [andb shown_sprite shown_raised shown_texture Images.with_index _index];
    try lia; rewrite ?H2; cbn [andb shown_sprite shown_raised _index
                               Images.with_index];
    repeat split; reflexivity.
Qed.

End ImageFacts.

(** ** Frames *)

Section FrameFacts.
Import Py.
Local Open Scope R_scope.

(** Assigning [center] moves the frame so that its centre is the value
    assigned, and leaves its size alone. *)
Theorem frame_center_assigned (f : Frame) (value : point) :
  Frame.center (Frame.set_center f value) = value
  /\ frame_w (Frame.set_center f value) = frame_w f
  /\ frame_h (Frame.set_center f value) = frame_h f.
Proof.
destruct value as [vx vy]. unfold Frame.set_center, Frame.center.
cbn [frame_x frame_y frame_w frame_h fst snd].
split; [|split; reflexivity].
f_equal; ring.
Qed.

End FrameFacts.

(** ** Getters, setters and the flag *)

Section SetterFacts.
Import Py.
Local Open Scope R_scope.

(** What is assigned to [rotation], [position], [width] and [height] is
    what is read back. *)
Theorem getters_read_setters (s : Sprite) (v : R) (p : point) :
  Sprite.rotation (Sprite.set_rotation s v) = v
  /\ Sprite.position (Sprite.set_position s p) = p
  /\ Sprite.width (Sprite.set_width s v) = v
  /\ Sprite.height (Sprite.set_height s v) = v.
Proof.
splits.
- unfold Sprite.set_rotation. destruct (truthy v);
    cbv [Sprite.rotation Sprite.with_dirty Sprite.with_GFX
         Sprite.set_GFX_rotation GFX GFX_rotation];
    apply Ropp_involutive.
- destruct p as [px py]. sprite_fields. reflexivity.
- sprite_fields. reflexivity.
- sprite_fields. reflexivity.
Qed.

(** On a display object that has an anchor and a scale, the setters of
    [width], [height], [fxcenter], [fycenter], [center] and [scale] set
    the flag whatever value is assigned, zero included; the setter of
    [rotation] sets it for every value but zero. *)
Theorem mutators_set_the_flag (s : Sprite) (v rot : R) (p : point) :
  GFX_anchor (GFX s) <> None -> GFX_scale (GFX s) <> None -> rot <> 0 ->
  _extentsdirty (Sprite.set_width s v) = true
  /\ _extentsdirty (Sprite.set_height s v) = true
  /\ _extentsdirty (Sprite.set_fxcenter s v) = true
  /\ _extentsdirty (Sprite.set_fycenter s v) = true
  /\ _extentsdirty (Sprite.set_center s p) = true
  /\ _extentsdirty (fst (Sprite.set_scale s v)) = true
  /\ snd (Sprite.set_scale s v) = None
  /\ _extentsdirty (Sprite.set_rotation s rot) = true.
Proof.
intros Ha Hs Hv.
unfold Sprite.set_fxcenter, Sprite.set_fycenter, Sprite.set_center,
  Sprite.set_scale, Sprite.set_rotation.
rewrite (truthy_nonzero rot Hv).
destruct (GFX_anchor (GFX s)) as [[ax ay]|]; [|contradiction].
destruct (GFX_scale (GFX s)) as [sc|]; [|contradiction].
splits; reflexivity.
Qed.

End SetterFacts.

(** ** Refreshing the extents *)

Section ExtentFacts.
Import Py.
Local Open Scope R_scope.
Context {m : Machine}.

Lemma setExtents_clean_after (s : Sprite) :
  snd (Sprite._setExtents s) = None ->
  _extentsdirty (fst (Sprite._setExtents s)) = false.
Proof.
unfold Sprite._setExtents.
destruct (_extentsdirty s) eqn:E; [|intros _; exact E].
destruct (is_CircleAsset (asset s)); [intros _; reflexivity|].
unfold Sprite._xformVertices.
destruct (Req_dec_T (Sprite.scale s) 0); [discriminate|].
cbn [and_then done_ _absolutevertices Sprite.with_absolutevertices].
destruct (map _ _) as [|q qs]; [discriminate|]. intros _. reflexivity.
Qed.

(** A refresh that succeeds clears the flag, and a second refresh then
    does nothing. *)
Theorem setExtents_settles (s : Sprite) :
  snd (Sprite._setExtents s) = None ->
  _extentsdirty (fst (Sprite._setExtents s)) = false
  /\ Sprite._setExtents (fst (Sprite._setExtents s))
     = done_ (fst (Sprite._setExtents s)).
Proof.
intros H. assert (Hd := setExtents_clean_after s H).
split; [exact Hd|].
unfold Sprite._setExtents at 1. rewrite Hd. reflexivity.
Qed.

(** After a successful refresh of an outline the box is well formed. *)
Theorem setExtents_ordered (s : Sprite) :
  _extentsdirty s = true -> is_CircleAsset (asset s) = false ->
  snd (Sprite._setExtents s) = None ->
  xmin (fst (Sprite._setExtents s)) <= xmax (fst (Sprite._setExtents s))
  /\ ymin (fst (Sprite._setExtents s)) <= ymax (fst (Sprite._setExtents s)).
Proof.
intros Hd Hc. unfold Sprite._setExtents. rewrite Hd, Hc.
unfold Sprite._xformVertices.
destruct (Req_dec_T (Sprite.scale s) 0); [discriminate|].
cbn [and_then done_ _absolutevertices Sprite.with_absolutevertices].
destruct (map _ _) as [|q qs]; [discriminate|]. intros _.
cbn [fst xmin xmax ymin ymax Sprite.with_dirty Sprite.with_extents].
split; apply min_of_le_max_of.
Qed.

(** An outline cannot be refreshed at scale zero: the centre is divided
    by the scale. *)
Theorem setExtents_at_scale_zero (s : Sprite) (p : point) :
  GFX_scale (GFX s) = Some p -> is_CircleAsset (asset s) = false ->
  and_then (Sprite.set_scale s 0) Sprite._setExtents
  = raise (fst (Sprite.set_scale s 0)) ZeroDivisionError.
Proof.
intros Hs Hc. unfold Sprite.set_scale. rewrite Hs.
cbn [and_then done_ fst]. unfold Sprite._setExtents.
cbn [_extentsdirty Sprite.with_dirty asset Sprite.with_GFX]. rewrite Hc.
unfold Sprite._xformVertices, Sprite.scale.
cbn [GFX Sprite.with_dirty Sprite.with_GFX GFX_scale Sprite.set_GFX_scale].
destruct (Req_dec_T 0 0) as [_|N]; [reflexivity|contradiction].
Qed.

(** A circle as edge definition of a sprite whose asset is no circle
    leaves no outline to measure: the constructor raises [ValueError]. *)
Theorem circle_edgedef_without_circle_asset (gfx : Display) (asset0 : Asset)
    (pos : point) (r sx sy : R) :
  is_CircleAsset asset0 = false ->
  GFX_scale gfx = Some (sx, sy) -> sx <> 0 ->
  snd (Sprite.__init__ gfx asset0 pos (Some (CircleAsset r)))
  = Some ValueError.
Proof.
intros Hc Hs Hsx. destruct pos as [px py]. unfold Sprite.__init__.
cbn [asset_len Nat.eqb].
match goal with |- context [Sprite._setExtents ?s] => set (s3 := s) end.
assert (HG : GFX_scale (GFX s3) = GFX_scale gfx).
{ subst s3. sprite_fields. reflexivity. }
assert (Hd : _extentsdirty s3 = true) by (subst s3; sprite_fields; reflexivity).
assert (Ha : asset s3 = asset0) by (subst s3; sprite_fields; reflexivity).
assert (Hb : _basevertices s3 = []) by (subst s3; sprite_fields; reflexivity).
clearbody s3.
unfold Sprite._setExtents. rewrite Hd, Ha, Hc.
unfold Sprite._xformVertices, Sprite.scale. rewrite HG, Hs, Hb.
destruct (Req_dec_T sx 0) as [E|_]; [contradiction|].
destruct (Req_dec_T sx 1); reflexivity.
Qed.

End ExtentFacts.

(** ** Collisions, both ways and with many sprites *)

Section CollisionFacts.
Import Py.
Local Open Scope R_scope.
Context {m : Machine}.

Lemma boxes_apart_sym (s o : Sprite) :
  Heap.boxes_apart s o = Heap.boxes_apart o s.
Proof.
unfold Heap.boxes_apart, gt.
destruct (lt (xmax o) (xmin s)), (lt (xmax s) (xmin o)),
  (lt (ymax o) (ymin s)), (lt (ymax s) (ymin o)); reflexivity.
Qed.

Lemma centre_distance_sym (s o : Sprite) :
  Heap.centre_distance s o = Heap.centre_distance o s.
Proof. unfold Heap.centre_distance. f_equal. ring. Qed.

(** On sprites whose extents are up to date the answer does not depend
    on which of the two is asked. *)
Theorem collidingWith_symmetric (h : gmap loc Sprite) (a b : loc)
    (s o : Sprite) :
  h !! a = Some s -> h !! b = Some o ->
  _extentsdirty s = false -> _extentsdirty o = false ->
  returned (Heap.collidingWith h a b) = returned (Heap.collidingWith h b a).
Proof.
intros Ha Hb Hs Ho. destruct (decide (a = b)) as [->|Hab]; [reflexivity|].
rewrite (collidingWith_clean h a b s o Hab Ha Hb Hs Ho).
rewrite (collidingWith_clean h b a o s (not_eq_sym Hab) Hb Ha Ho Hs).
rewrite (boxes_apart_sym o s), (centre_distance_sym o s).
rewrite (Rplus_comm (Sprite.width o / 2)).
destruct (Heap.boxes_apart s o), (is_CircleAsset (asset s)),
  (is_CircleAsset (asset o)); reflexivity.
Qed.

Lemma collidingWith_same (h : gmap loc Sprite) (a : loc) :
  Heap.collidingWith h a a
  = {| heap_after := h; narrow := []; returned := inr false |}.
Proof.
unfold Heap.collidingWith.
destruct (decide (a = a)) as [_|N]; [reflexivity|contradiction].
Qed.

Lemma filter_colliding_sublist (self : loc) (slist : list loc) :
  forall (h : gmap loc Sprite) (l : list loc),
    filtered (Group.filter_colliding h self slist) = inr l ->
    (self ∉ l) /\ sublist l slist.
Proof.
induction slist as [|obj rest IH]; intros h l; simpl.
- intros [= <-]. split; [apply not_elem_of_nil|constructor].
- destruct (decide (self = obj)) as [<-|Hne].
  + rewrite collidingWith_same. simpl.
    destruct (filtered (Group.filter_colliding h self rest)) as [e|l0] eqn:E;
      [discriminate|].
    intros [= <-]. destruct (IH h l0 E) as [Hn Hsub].
    split; [exact Hn|]. apply sublist_cons. exact Hsub.
  + destruct (returned (Heap.collidingWith h self obj)) as [e|b];
      [simpl; discriminate|]. simpl.
    destruct (filtered (Group.filter_colliding _ self rest)) as [e|l0] eqn:E;
      [discriminate|].
    intros [= <-]. destruct (IH _ l0 E) as [Hn Hsub].
    destruct b.
    * split; [|apply sublist_skip; exact Hsub].
      apply not_elem_of_cons. split; assumption.
    * split; [exact Hn|]. apply sublist_cons. exact Hsub.
Qed.

(** The sprites [collidingWithSprites] answers are taken, in order, from
    the sprites it was to check, and the sprite itself is never among
    them. *)
Theorem collidingWithSprites_excludes_self (h : gmap loc Sprite) (a : App)
    (self : loc) (sclass : option string) (l : list loc) :
  filtered (Group.collidingWithSprites h a self sclass) = inr l ->
  (self ∉ l)
  /\ sublist l (match sclass with
                | None => spritelist a
                | Some c => App.getSpritesbyClass a c
                end).
Proof.
unfold Group.collidingWithSprites. apply filter_colliding_sublist.
Qed.


End CollisionFacts.

Section ExtraScenarios.
Import Py.
Local Open Scope R_scope.
#[local] Existing Instance Scenario.doubles.

Lemma image_steps_stay_in_range_witness :
  shown_raised (Images.nextImage Scenario.animated false) = None
  /\ shown_raised (Images.prevImage Scenario.animated false) = None
  /\ _index (shown_sprite (Images.nextImage Scenario.animated false))
     = Z.min (_index Scenario.animated + 1)
         (Z.of_nat (asset_len (asset Scenario.animated)) - 1)
  /\ _index (shown_sprite (Images.prevImage Scenario.animated false))
     = Z.max (_index Scenario.animated - 1) 0
  /\ shown_texture (Images.nextImage Scenario.animated false)
     = Some (Z.to_nat
               (_index (shown_sprite
                          (Images.nextImage Scenario.animated false))))
  /\ shown_texture (Images.prevImage Scenario.animated false)
     = Some (Z.to_nat
               (_index (shown_sprite
                          (Images.prevImage Scenario.animated false)))).
Proof.
apply (image_steps_stay_in_range Scenario.animated false).
unfold Scenario.animated. cbn [_index asset asset_len]. lia.
Defined.


Lemma mutators_set_the_flag_witness :
  _extentsdirty (Sprite.set_width Scenario.animated 0) = true
  /\ _extentsdirty (Sprite.set_height Scenario.animated 0) = true
  /\ _extentsdirty (Sprite.set_fxcenter Scenario.animated 0) = true
  /\ _extentsdirty (Sprite.set_fycenter Scenario.animated 0) = true
  /\ _extentsdirty (Sprite.set_center Scenario.animated (0, 0)) = true
  /\ _extentsdirty (fst (Sprite.set_scale Scenario.animated 0)) = true
  /\ snd (Sprite.set_scale Scenario.animated 0) = None
  /\ _extentsdirty (Sprite.set_rotation Scenario.animated 1) = true.
Proof.
apply (mutators_set_the_flag Scenario.animated 0 1 (0, 0)).
- discriminate.
- discriminate.
- lra.
Defined.

Lemma setExtents_settles_witness :
  _extentsdirty (fst (Sprite._setExtents Scenario.animated)) = false
  /\ Sprite._setExtents (fst (Sprite._setExtents Scenario.animated))
     = done_ (fst (Sprite._setExtents Scenario.animated)).
Proof.
apply (setExtents_settles Scenario.animated). reflexivity.
Defined.

Lemma setExtents_ordered_witness :
  xmin (fst (Sprite._setExtents (Sprite.with_dirty Scenario.animated true)))
  <= xmax (fst (Sprite._setExtents
                  (Sprite.with_dirty Scenario.animated true)))
  /\ ymin (fst (Sprite._setExtents
                  (Sprite.with_dirty Scenario.animated true)))
     <= ymax (fst (Sprite._setExtents
                     (Sprite.with_dirty Scenario.animated true))).
Proof.
apply (setExtents_ordered (Sprite.with_dirty Scenario.animated true)).
- reflexivity.
- reflexivity.
- apply (setExtents_box (Sprite.with_dirty Scenario.animated true)
           1 32 32 1).
  + reflexivity.
  + reflexivity.
  + reflexivity.
  + reflexivity.
  + change (cos (- 0) = 1). rewrite Ropp_0. apply cos_0.
  + change (sin (- 0) = 0). rewrite Ropp_0. apply sin_0.
Defined.

Lemma setExtents_at_scale_zero_witness :
  and_then (Sprite.set_scale Scenario.animated 0) Sprite._setExtents
  = raise (fst (Sprite.set_scale Scenario.animated 0)) ZeroDivisionError.
Proof.
apply (setExtents_at_scale_zero Scenario.animated (1, 1)).
- reflexivity.
- reflexivity.
Defined.

Lemma circle_edgedef_without_circle_asset_witness :
  snd (Sprite.__init__ (GFX_Sprite 100 100) (ImageAsset 100 100 1) (100, 100)
         (Some (CircleAsset 50)))
  = Some ValueError.
Proof.
apply (circle_edgedef_without_circle_asset (GFX_Sprite 100 100)
         (ImageAsset 100 100 1) (100, 100) 50 1 1).
- reflexivity.
- reflexivity.
- lra.
Defined.

Lemma collidingWith_symmetric_witness :
  returned (Heap.collidingWith Scenario.two_blocks 1%nat 2%nat)
  = returned (Heap.collidingWith Scenario.two_blocks 2%nat 1%nat).
Proof.
apply (collidingWith_symmetric Scenario.two_blocks 1%nat 2%nat
         (Scenario.block 0 10 0 10) (Scenario.block 20 30 0 10)).
- exact two_blocks_1.
- exact two_blocks_2.
- reflexivity.
- reflexivity.
Defined.

Lemma collidingWithSprites_excludes_self_witness :
  (1%nat ∉ ([] : list loc))
  /\ sublist []
       (spritelist (App._add Scenario.plain App.initial 1%nat)).
Proof.
apply (collidingWithSprites_excludes_self ∅
         (App._add Scenario.plain App.initial 1%nat) 1%nat None []).
reflexivity.
Defined.


End ExtraScenarios.
